(** * fairseq2: the standard Transformer decoder layer and the NLLB checkpoint key map

    A shallow embedding of
    - [src/fairseq2/nn/transformer/decoder_layer.py]
      ([StandardTransformerDecoderLayer]: constructor and forward pass),
    - [src/fairseq2/models/nllb/loader.py]
      ([NllbLoader._fairseq_key_map] and [NllbLoader._upgrade_checkpoint]
      with its control-token fix-up), and
    - [src/fairseq2/recipes/config_manager.py]
      ([StandardConfigManager] and the factory of [register_config]).

    The decoder layer composes collaborator modules (attention, feed-forward
    network, layer normalisation) and a few torch primitives.  They are kept
    abstract: the layer is embedded once, over arbitrary collaborators, in
    [Section DecoderLayer]; [Module Tagged] then instantiates the collaborators
    with modules that tag their input, so that the order of the calls can be
    read off the result, and [Module Numeric] with modules that compute. *)

From Stdlib Require Import ZArith String Ascii List Floats Lia Bool.
From stdpp Require Import base option list strings pretty gmap.

Open Scope Z_scope.
Open Scope string_scope.

(** ** Exceptions and the effect monad *)

(** Python exceptions.  [ValueError] and [TypeError] are raised by statements
    of the layer itself; whatever a collaborator raises (it may well be a
    Python [ValueError] of its own) is kept under [ModuleError], so that the
    origin of an exception stays visible. *)
Inductive exn (E : Type) : Type :=
| ValueError (msg : string)
| TypeError (msg : string)
| ModuleError (e : E).
Arguments ValueError {E} msg.
Arguments TypeError {E} msg.
Arguments ModuleError {E} e.

(** What a statement of the layer ends with: a value, or a raised exception. *)
Inductive outcome (E A : Type) : Type :=
| Ok (a : A)
| Raise (e : exn E).
Arguments Ok {E A} a.
Arguments Raise {E A} e.

(** What a call of a collaborator ends with: the value it returns, or the
    exception it raises. *)
Inductive result (E A : Type) : Type :=
| Returned (a : A)
| Failed (e : E).
Arguments Returned {E A} a.
Arguments Failed {E A} e.

(** An exception of a collaborator propagates through the layer unchanged. *)
Definition propagate {E A} (r : result E A) : outcome E A :=
  match r with
  | Returned a => Ok a
  | Failed e => Raise (ModuleError e)
  end.

(** [fairseq2.nn.transformer.norm_order.TransformerNormOrder] *)
Inductive TransformerNormOrder : Type :=
| POST
| PRE
| PRE_WITH_NORMFORMER.

Definition norm_order_eqb (a b : TransformerNormOrder) : bool :=
  match a, b with
  | POST, POST | PRE, PRE | PRE_WITH_NORMFORMER, PRE_WITH_NORMFORMER => true
  | _, _ => false
  end.

(** ** The collaborators

    Everything the layer only calls: tensors and the torch primitives on them,
    [torch.nn.LayerNorm], and the types of masks, state bags and generator
    states.  Every call may raise. *)
Class Torch : Type := {
  Tensor : Type;
  Mask : Type;
  Bag : Type;                      (* contents of an IncrementalStateBag *)
  Rng : Type;                      (* state of torch's random generator *)
  ModExn : Type;                   (* exceptions of collaborators *)
  Device : Type;
  Dtype : Type;
  shape : Tensor -> list Z;
  tensor_add : Tensor -> Tensor -> result ModExn Tensor;   (* x + residual *)
  torch_mul : Tensor -> Tensor -> result ModExn Tensor;
  F_dropout : Tensor -> float -> bool -> Rng -> result ModExn Tensor * Rng;
  torch_empty : Z -> option Device -> option Dtype -> Tensor;
  nn_init_ones_ : Tensor -> Tensor;
  LayerNorm : Type;
  LayerNorm_new : Z -> float -> option Device -> option Dtype -> LayerNorm;
  LayerNorm_forward : LayerNorm -> Tensor -> result ModExn Tensor
}.

(** The mutable world a forward call runs in: the contents of the
    [IncrementalStateBag] object passed as [state_bag] ([None] when the caller
    passes no bag), and the state of torch's random number generator. *)
Record World `{Torch} : Type := mkWorld {
  st_bag : option Bag;
  st_rng : Rng
}.
Arguments mkWorld {_} st_bag st_rng.

Section Monad.
Context `{Torch}.

(** A computation returns an outcome and the world it leaves behind: a
    raised exception does not undo the mutations made before it. *)
Definition M (A : Type) : Type := World -> outcome ModExn A * World.

Definition ret {A} (a : A) : M A := fun w => (Ok a, w).

Definition bind {A B} (m : M A) (k : A -> M B) : M B :=
  fun w =>
    match m w with
    | (Ok a, w') => k a w'
    | (Raise e, w') => (Raise e, w')
    end.

Definition raise {A} (e : exn ModExn) : M A := fun w => (Raise e, w).

(** A call that touches neither the bag nor the generator. *)
Definition call {A} (r : result ModExn A) : M A := fun w => (propagate r, w).

(** A call that is handed the state bag (and may mutate it in place). *)
Definition call_with_bag {A}
    (f : option Bag -> result ModExn A * option Bag) : M A :=
  fun w => let '(r, b) := f (st_bag w) in (propagate r, mkWorld b (st_rng w)).

(** A call that draws from the random number generator. *)
Definition call_with_rng {A} (f : Rng -> result ModExn A * Rng) : M A :=
  fun w => let '(r, g) := f (st_rng w) in (propagate r, mkWorld (st_bag w) g).

End Monad.

Declare Scope py_scope.
Delimit Scope py_scope with py.
Notation "x <- m ;; k" := (bind m (fun x => k))
  (at level 100, m at next level, right associativity) : py_scope.
Open Scope py_scope.

(** ** The decoder layer *)

Section DecoderLayer.
Context `{Torch}.

(** [MultiheadAttention]: its declared [model_dim] and its call
    [m(x, keys, values, attn_mask, padding_mask, state_bag)], which returns
    the attention output and the contents of the bag after the call. *)
Record MultiheadAttention : Type := {
  mha_model_dim : Z;
  mha_forward :
    Tensor -> Tensor -> Tensor -> option Mask -> option Mask ->
    option Bag -> result ModExn Tensor * option Bag
}.

(** [FeedForwardNetwork]: its declared [model_dim] and its call. *)
Record FeedForwardNetwork : Type := {
  ffn_model_dim : Z;
  ffn_forward : Tensor -> result ModExn Tensor
}.

(** The attributes of a [StandardTransformerDecoderLayer]; [training] is the
    flag every [torch.nn.Module] carries. *)
Record Layer : Type := mkLayer {
  model_dim : Z;
  self_attn : MultiheadAttention;
  self_attn_norm : option LayerNorm;
  self_attn_layer_norm : LayerNorm;
  enc_dec_attn : option MultiheadAttention;
  enc_dec_attn_layer_norm : option LayerNorm;
  ffn : FeedForwardNetwork;
  residual_scale : option Tensor;
  ffn_layer_norm : LayerNorm;
  dropout_p : float;
  norm_order : TransformerNormOrder;
  training : bool
}.

(** The two dimension-mismatch messages of the constructor. *)
Definition enc_dec_attn_dim_msg (got expected : Z) : string :=
  "`model_dim` of `enc_dec_attn` (" ++ pretty got
    ++ ") does not match `model_dim` of `self_attn` (" ++ pretty expected ++ ").".

Definition ffn_dim_msg (got expected : Z) : string :=
  "`model_dim` of `ffn` (" ++ pretty got
    ++ ") does not match `model_dim` of `self_attn` (" ++ pretty expected ++ ").".

(** [reset_parameters] acts on the residual scale only. *)
Definition reset_parameters (residual_scale : option Tensor) : option Tensor :=
  match residual_scale with
  | Some p => Some (nn_init_ones_ p)
  | None => None
  end.

(** [StandardTransformerDecoderLayer.__init__].  Allocating a [LayerNorm] or
    a [Parameter] is taken to succeed; the constructor itself raises only
    the two [ValueError]s below.  [norm_order != POST] and
    [norm_order == POST] only choose the position at which a layer norm is
    registered, the module assigned is the same on both paths. *)
Definition __init__
    (self_attn : MultiheadAttention)
    (enc_dec_attn : option MultiheadAttention)
    (ffn : FeedForwardNetwork)
    (scale_residual : bool)
    (dropout_p : float)
    (norm_order : TransformerNormOrder)
    (norm_eps : float)
    (device : option Device)
    (dtype : option Dtype) : outcome ModExn Layer :=
  let model_dim := mha_model_dim self_attn in
  let self_attn_layer_norm := LayerNorm_new model_dim norm_eps device dtype in
  let self_attn_norm :=
    if norm_order_eqb norm_order PRE_WITH_NORMFORMER
    then Some (LayerNorm_new model_dim norm_eps device dtype)
    else None in
  let cross :=
    match enc_dec_attn with
    | None => Ok (None, None)
    | Some eda =>
        if negb (mha_model_dim eda =? model_dim)%Z
        then Raise (ValueError (enc_dec_attn_dim_msg (mha_model_dim eda) model_dim))
        else
          let enc_dec_attn_layer_norm :=
            LayerNorm_new model_dim norm_eps device dtype in
          Ok (Some eda, Some enc_dec_attn_layer_norm)
    end in
  match cross with
  | Raise e => Raise e
  | Ok (enc_dec_attn, enc_dec_attn_layer_norm) =>
      if negb (ffn_model_dim ffn =? model_dim)%Z
      then Raise (ValueError (ffn_dim_msg (ffn_model_dim ffn) model_dim))
      else
        let ffn_layer_norm := LayerNorm_new model_dim norm_eps device dtype in
        let residual_scale :=
          if scale_residual
          then Some (torch_empty model_dim device dtype)
          else None in
        Ok {| model_dim := model_dim;
              self_attn := self_attn;
              self_attn_norm := self_attn_norm;
              self_attn_layer_norm := self_attn_layer_norm;
              enc_dec_attn := enc_dec_attn;
              enc_dec_attn_layer_norm := enc_dec_attn_layer_norm;
              ffn := ffn;
              residual_scale := reset_parameters residual_scale;
              ffn_layer_norm := ffn_layer_norm;
              dropout_p := dropout_p;
              norm_order := norm_order;
              training := true |}
  end.

(** [self.dropout_p > 0.0] *)
Definition dropout_on (self : Layer) : bool :=
  PrimFloat.ltb 0%float (dropout_p self).

(** [_forward_self_attn]; the [state_bag] argument is the bag of the world. *)
Definition _forward_self_attn (self : Layer) (x : Tensor)
    (padding_mask self_attn_mask : option Mask) : M Tensor :=
  let residual := x in
  x <- (if negb (norm_order_eqb (norm_order self) POST)
        then call (LayerNorm_forward (self_attn_layer_norm self) x)
        else ret x) ;;
  x <- call_with_bag
         (mha_forward (self_attn self) x x x self_attn_mask padding_mask) ;;
  x <- (match self_attn_norm self with
        | Some norm => call (LayerNorm_forward norm x)
        | None => ret x
        end) ;;
  x <- (if dropout_on self
        then call_with_rng (F_dropout x (dropout_p self) (training self))
        else ret x) ;;
  x <- call (tensor_add x residual) ;;
  x <- (if norm_order_eqb (norm_order self) POST
        then call (LayerNorm_forward (self_attn_layer_norm self) x)
        else ret x) ;;
  ret x.

Definition enc_out_must_be_None : string :=
  "`enc_out` must be `None` for decoder-only attention.".

Definition enc_out_must_not_be_None : string :=
  "`enc_out` must not be `None` for encoder-decoder attention.".

(** [cast(LayerNorm, self.enc_dec_attn_layer_norm)(x)]: [cast] does nothing
    at run time, so calling an absent norm is Python's [TypeError]. *)
Definition call_enc_dec_attn_layer_norm (self : Layer) (x : Tensor) : M Tensor :=
  match enc_dec_attn_layer_norm self with
  | Some norm => call (LayerNorm_forward norm x)
  | None => raise (TypeError "'NoneType' object is not callable")
  end.

(** [_forward_enc_dec_attn] *)
Definition _forward_enc_dec_attn (self : Layer) (x : Tensor)
    (enc_out : option Tensor) (enc_padding_mask : option Mask) : M Tensor :=
  match enc_dec_attn self with
  | None =>
      match enc_out with
      | Some _ => raise (ValueError enc_out_must_be_None)
      | None => ret x
      end
  | Some attn =>
      match enc_out with
      | None => raise (ValueError enc_out_must_not_be_None)
      | Some enc_out =>
          let residual := x in
          x <- (if negb (norm_order_eqb (norm_order self) POST)
                then call_enc_dec_attn_layer_norm self x
                else ret x) ;;
          x <- call_with_bag
                 (mha_forward attn x enc_out enc_out None enc_padding_mask) ;;
          x <- (if dropout_on self
                then call_with_rng (F_dropout x (dropout_p self) (training self))
                else ret x) ;;
          x <- call (tensor_add x residual) ;;
          x <- (if norm_order_eqb (norm_order self) POST
                then call_enc_dec_attn_layer_norm self x
                else ret x) ;;
          ret x
      end
  end.

(** [_forward_ffn] *)
Definition _forward_ffn (self : Layer) (x : Tensor) : M Tensor :=
  let residual := x in
  x <- (if negb (norm_order_eqb (norm_order self) POST)
        then call (LayerNorm_forward (ffn_layer_norm self) x)
        else ret x) ;;
  x <- call (ffn_forward (ffn self) x) ;;
  x <- (if dropout_on self
        then call_with_rng (F_dropout x (dropout_p self) (training self))
        else ret x) ;;
  residual <- (match residual_scale self with
               | Some scale => call (torch_mul scale residual)
               | None => ret residual
               end) ;;
  x <- call (tensor_add x residual) ;;
  x <- (if norm_order_eqb (norm_order self) POST
        then call (LayerNorm_forward (ffn_layer_norm self) x)
        else ret x) ;;
  ret x.

(** [forward] *)
Definition forward (self : Layer) (x : Tensor)
    (padding_mask self_attn_mask : option Mask)
    (enc_out : option Tensor) (enc_padding_mask : option Mask) : M Tensor :=
  x <- _forward_self_attn self x padding_mask self_attn_mask ;;
  x <- _forward_enc_dec_attn self x enc_out enc_padding_mask ;;
  x <- _forward_ffn self x ;;
  ret x.

End DecoderLayer.

(** ** Vocabulary for the properties of the layer *)

Section SubBlocks.
Context `{Torch}.

(** Dropout as each sub-block applies it: only when [dropout_p > 0.0]. *)
Definition dropout_step (self : Layer) (x : Tensor) : M Tensor :=
  if dropout_on self
  then call_with_rng (F_dropout x (dropout_p self) (training self))
  else ret x.

(** The call of a layer norm, as a computation. *)
Definition apply_norm (norm : LayerNorm) (x : Tensor) : M Tensor :=
  call (LayerNorm_forward norm x).

(** The three main transforms: self attention (query, keys and values are all
    the given tensor), encoder-decoder attention (keys and values are the
    encoder output, no attention mask) and the feed-forward network. *)
Definition self_attn_transform (self : Layer)
    (padding_mask self_attn_mask : option Mask) (q : Tensor) : M Tensor :=
  call_with_bag (mha_forward (self_attn self) q q q self_attn_mask padding_mask).

Definition enc_dec_attn_transform (attn : MultiheadAttention)
    (enc_out : Tensor) (enc_padding_mask : option Mask) (q : Tensor) : M Tensor :=
  call_with_bag (mha_forward attn q enc_out enc_out None enc_padding_mask).

Definition ffn_transform (self : Layer) (q : Tensor) : M Tensor :=
  call (ffn_forward (ffn self) q).

(** The optional extra normalisation of the self-attention output. *)
Definition extra_norm_step (self : Layer) (y : Tensor) : M Tensor :=
  match self_attn_norm self with
  | Some norm => apply_norm norm y
  | None => ret y
  end.

(** The optional scaling of the feed-forward residual. *)
Definition scale_step (self : Layer) (residual : Tensor) : M Tensor :=
  match residual_scale self with
  | Some scale => call (torch_mul scale residual)
  | None => ret residual
  end.

(** The branch of a sub-block: what is computed from the (possibly
    normalised) input and then added to the residual. *)
Definition self_attn_branch (self : Layer)
    (padding_mask self_attn_mask : option Mask) (q : Tensor) : M Tensor :=
  y <- self_attn_transform self padding_mask self_attn_mask q ;;
  y <- extra_norm_step self y ;;
  dropout_step self y.

Definition enc_dec_attn_branch (self : Layer) (attn : MultiheadAttention)
    (enc_out : Tensor) (enc_padding_mask : option Mask) (q : Tensor) : M Tensor :=
  y <- enc_dec_attn_transform attn enc_out enc_padding_mask q ;;
  dropout_step self y.

Definition ffn_branch (self : Layer) (q : Tensor) : M Tensor :=
  y <- ffn_transform self q ;;
  dropout_step self y.

(** The two placements of the layer norm around a sub-block (spec, section
    4.2).  Post-norm: the branch sees [x] itself and the norm is applied to the
    residual sum.  Pre-norm: the branch sees the normalised [x] and the
    residual sum is returned as it is.  [rescale] is what is done to the
    residual before it is added. *)
Definition post_norm_block (norm branch rescale : Tensor -> M Tensor)
    (x : Tensor) : M Tensor :=
  y <- branch x ;;
  r <- rescale x ;;
  s <- call (tensor_add y r) ;;
  norm s.

Definition pre_norm_block (norm branch rescale : Tensor -> M Tensor)
    (x : Tensor) : M Tensor :=
  n <- norm x ;;
  y <- branch n ;;
  r <- rescale x ;;
  call (tensor_add y r).

(** A sub-block under a given norm order: post-norm for [POST], pre-norm for
    [PRE] and [PRE_WITH_NORMFORMER]. *)
Definition norm_block (order : TransformerNormOrder)
    (norm branch rescale : Tensor -> M Tensor) (x : Tensor) : M Tensor :=
  if norm_order_eqb order POST
  then post_norm_block norm branch rescale x
  else pre_norm_block norm branch rescale x.

(** A layer with one attribute replaced. *)
Definition with_residual_scale (self : Layer) (s : option Tensor) : Layer :=
  mkLayer (model_dim self) (self_attn self) (self_attn_norm self)
    (self_attn_layer_norm self) (enc_dec_attn self)
    (enc_dec_attn_layer_norm self) (ffn self) s (ffn_layer_norm self)
    (dropout_p self) (norm_order self) (training self).

Definition with_self_attn_norm (self : Layer) (n : option LayerNorm) : Layer :=
  mkLayer (model_dim self) (self_attn self) n
    (self_attn_layer_norm self) (enc_dec_attn self)
    (enc_dec_attn_layer_norm self) (ffn self) (residual_scale self)
    (ffn_layer_norm self) (dropout_p self) (norm_order self) (training self).

(** Kinds of exceptions. *)
Definition is_ModuleError (e : exn ModExn) : Prop :=
  match e with ModuleError _ => True | _ => False end.

Definition not_ValueError (e : exn ModExn) : Prop :=
  match e with ValueError _ => False | _ => True end.

(** Whatever [m] raises satisfies [P]. *)
Definition raises_only {A} (P : exn ModExn -> Prop) (m : M A) : Prop :=
  forall w e, fst (m w) = Raise e -> P e.

(** The encoder output is given exactly when the layer has cross attention. *)
Definition enc_out_matches (self : Layer) (enc_out : option Tensor) : Prop :=
  is_Some enc_out <-> is_Some (enc_dec_attn self).

(** [m] returns normally from every world, with a value satisfying [P]. *)
Definition returns {A} (P : A -> Prop) (m : M A) : Prop :=
  forall w, exists a w', m w = (Ok a, w') /\ P a.

(** [m] neither reads nor advances the random number generator. *)
Definition rng_free {A} (m : M A) : Prop :=
  forall w r,
    m (mkWorld (st_bag w) r)
    = (fst (m w), mkWorld (st_bag (snd (m w))) r).

End SubBlocks.

(** ** Shapes

    What the layer relies on when it claims to preserve the shape of [x]: the
    broadcasting rules of the torch primitives, and collaborators that return
    a tensor shaped like their input. *)

(** The shape rules of the torch primitives the layer calls: adding tensors
    of one shape, multiplying a tensor by a vector along its last axis,
    dropout with a probability in (0, 1], and the shape of a fresh parameter. *)
Class TorchLaws `{Torch} : Prop := {
  tensor_add_shape : forall a b,
    shape a = shape b ->
    exists c, tensor_add a b = Returned c /\ shape c = shape a;
  torch_mul_shape : forall s t d,
    shape s = [d] -> last (shape t) = Some d ->
    exists c, torch_mul s t = Returned c /\ shape c = shape t;
  F_dropout_shape : forall t p train r,
    PrimFloat.ltb 0%float p = true -> PrimFloat.leb p 1%float = true ->
    exists y r', F_dropout t p train r = (Returned y, r') /\ shape y = shape t;
  torch_empty_shape : forall d dev dt, shape (torch_empty d dev dt) = [d];
  nn_init_ones_shape : forall t, shape (nn_init_ones_ t) = shape t
}.

Section Shapes.
Context `{Torch}.

(** A layer norm that accepts the tensors of shape [sh] and keeps their shape. *)
Definition norm_keeps_shape (sh : list Z) (norm : LayerNorm) : Prop :=
  forall t, shape t = sh ->
    exists y, LayerNorm_forward norm t = Returned y /\ shape y = sh.

(** An attention module that, for the given keys, values and masks, accepts
    the queries of shape [sh] and returns a tensor of that shape. *)
Definition attn_keeps_shape (sh : list Z) (attn : MultiheadAttention)
    (keys : Tensor -> Tensor) (attn_mask padding_mask : option Mask) : Prop :=
  forall q bag, shape q = sh ->
    exists y bag',
      mha_forward attn q (keys q) (keys q) attn_mask padding_mask bag = (Returned y, bag')
      /\ shape y = sh.

Definition ffn_keeps_shape (sh : list Z) (net : FeedForwardNetwork) : Prop :=
  forall t, shape t = sh ->
    exists y, ffn_forward net t = Returned y /\ shape y = sh.

(** The invariant the constructor establishes and a forward call relies on:
    the cross-attention module and its layer norm are present together, and
    the residual scale is a vector of [model_dim] entries. *)
Definition well_formed (self : Layer) : Prop :=
  (is_Some (enc_dec_attn self) <-> is_Some (enc_dec_attn_layer_norm self))
  /\ (forall s, residual_scale self = Some s -> shape s = [model_dim self]).

(** A valid call: the last axis of [x] is the model dimension, the encoder
    output is given exactly when the layer has cross attention, the dropout
    probability (when positive) is at most one, and every collaborator of the
    layer accepts the tensors shaped like [x] and preserves their shape. *)
Record valid_call (self : Layer) (x : Tensor)
    (padding_mask self_attn_mask : option Mask)
    (enc_out : option Tensor) (enc_padding_mask : option Mask) : Prop := {
  valid_input : last (shape x) = Some (model_dim self);
  valid_enc_out : enc_out_matches self enc_out;
  valid_dropout_p :
    dropout_on self = true -> PrimFloat.leb (dropout_p self) 1%float = true;
  valid_self_attn :
    attn_keeps_shape (shape x) (self_attn self) (fun q => q)
      self_attn_mask padding_mask;
  valid_enc_dec_attn : forall attn e,
    enc_dec_attn self = Some attn -> enc_out = Some e ->
    attn_keeps_shape (shape x) attn (fun _ => e) None enc_padding_mask;
  valid_ffn : ffn_keeps_shape (shape x) (ffn self);
  valid_self_attn_layer_norm :
    norm_keeps_shape (shape x) (self_attn_layer_norm self);
  valid_self_attn_norm : forall n,
    self_attn_norm self = Some n -> norm_keeps_shape (shape x) n;
  valid_enc_dec_attn_layer_norm : forall n,
    enc_dec_attn_layer_norm self = Some n -> norm_keeps_shape (shape x) n;
  valid_ffn_layer_norm : norm_keeps_shape (shape x) (ffn_layer_norm self)
}.

End Shapes.

(** ** Attributes set after construction, and the state bag *)

Section Attributes.
Context `{Torch}.

(** A layer whose dropout probability has been reassigned. *)
Definition with_dropout_p (self : Layer) (p : float) : Layer :=
  mkLayer (model_dim self) (self_attn self) (self_attn_norm self)
    (self_attn_layer_norm self) (enc_dec_attn self)
    (enc_dec_attn_layer_norm self) (ffn self) (residual_scale self)
    (ffn_layer_norm self) p (norm_order self) (training self).

(** A layer after [train(mode)] ([eval()] is [train(False)]). *)
Definition with_training (self : Layer) (mode : bool) : Layer :=
  mkLayer (model_dim self) (self_attn self) (self_attn_norm self)
    (self_attn_layer_norm self) (enc_dec_attn self)
    (enc_dec_attn_layer_norm self) (ffn self) (residual_scale self)
    (ffn_layer_norm self) (dropout_p self) (norm_order self) mode.

(** [m] keeps the property [I] of the contents of the state bag, whether it
    returns or raises. *)
Definition keeps_bag {A} (I : option Bag -> Prop) (m : M A) : Prop :=
  forall w, I (st_bag w) -> I (st_bag (snd (m w))).

(** Every call of the attention module keeps [I]. *)
Definition attention_keeps_bag (I : option Bag -> Prop)
    (attn : MultiheadAttention) : Prop :=
  forall q k v attn_mask padding_mask bag,
    I bag -> I (snd (mha_forward attn q k v attn_mask padding_mask bag)).

End Attributes.

(** ** Collaborators that tag their input

    An instance of the collaborators in which every call succeeds and wraps
    its arguments in a constructor, so that the tensor a sub-block returns
    spells out which modules were called on what, and in which order.  The
    state bag is a step counter which every attention call advances; the
    random generator is a counter of the draws made so far. *)
Module Tagged.

Inductive term : Type :=
| Input (name : string) (shp : list Z)
| Normed (norm : string) (t : term)
| Attended (attn : string) (q k v : term)
    (attn_mask padding_mask : option string) (step : option nat)
| FedForward (t : term)
| Dropped (p : float) (draw : nat) (t : term)
| Added (a b : term)
| Scaled (scale t : term)
| Empty (d : Z)
| Ones (t : term).

Fixpoint shape_of (t : term) : list Z :=
  match t with
  | Input _ shp => shp
  | Normed _ t => shape_of t
  | Attended _ q _ _ _ _ _ => shape_of q
  | FedForward t => shape_of t
  | Dropped _ _ t => shape_of t
  | Added a _ => shape_of a
  | Scaled _ t => shape_of t
  | Empty d => [d]
  | Ones t => shape_of t
  end.

(** [F.dropout] is the identity outside training mode. *)
Definition dropout (t : term) (p : float) (train : bool) (draws : nat)
    : result string term * nat :=
  if train then (Returned (Dropped p draws t), S draws) else (Returned t, draws).

#[export] Instance tagged : Torch := {|
  Tensor := term;
  Mask := string;
  Bag := nat;
  Rng := nat;
  ModExn := string;
  Device := unit;
  Dtype := unit;
  shape := shape_of;
  tensor_add := fun a b => Returned (Added a b);
  torch_mul := fun s t => Returned (Scaled s t);
  F_dropout := dropout;
  torch_empty := fun d _ _ => Empty d;
  nn_init_ones_ := Ones;
  LayerNorm := string;
  LayerNorm_new := fun _ _ _ _ => "LayerNorm";
  LayerNorm_forward := fun norm t => Returned (Normed norm t)
|}.

(** An attention module that tags its arguments and advances the bag. *)
Definition attention (name : string) (dim : Z) : MultiheadAttention := {|
  mha_model_dim := dim;
  mha_forward := fun q k v attn_mask padding_mask bag =>
    (Returned (Attended name q k v attn_mask padding_mask bag), S <$> bag)
|}.

(** An attention module that rejects every call and leaves the bag alone. *)
Definition broken_attention (dim : Z) : MultiheadAttention := {|
  mha_model_dim := dim;
  mha_forward := fun _ _ _ _ _ bag => (Failed "attention failed", bag)
|}.

Definition network (dim : Z) : FeedForwardNetwork := {|
  ffn_model_dim := dim;
  ffn_forward := fun t => Returned (FedForward t)
|}.

(** A hand-built layer whose four layer norms carry the names of the
    attributes they are stored in. *)
Definition layer (order : TransformerNormOrder)
    (cross : bool) (extra : bool) (scale : option term)
    (p : float) (train : bool) : Layer := {|
  model_dim := 8;
  self_attn := attention "self_attn" 8;
  self_attn_norm := if extra then Some "self_attn_norm" else None;
  self_attn_layer_norm := "self_attn_layer_norm";
  enc_dec_attn := if cross then Some (attention "enc_dec_attn" 8) else None;
  enc_dec_attn_layer_norm :=
    if cross then Some "enc_dec_attn_layer_norm" else None;
  ffn := network 8;
  residual_scale := scale;
  ffn_layer_norm := "ffn_layer_norm";
  dropout_p := p;
  norm_order := order;
  training := train
|}.

(** A decoder-only post-norm layer whose self-attention module is broken. *)
Definition broken_layer : Layer := {|
  model_dim := 8;
  self_attn := broken_attention 8;
  self_attn_norm := None;
  self_attn_layer_norm := "self_attn_layer_norm";
  enc_dec_attn := None;
  enc_dec_attn_layer_norm := None;
  ffn := network 8;
  residual_scale := None;
  ffn_layer_norm := "ffn_layer_norm";
  dropout_p := 0%float;
  norm_order := POST;
  training := false
|}.

(** A sample input of shape (2, 5, 8), a sample encoder output, the world
    with a given step counter and number of draws, and the world of a call
    that passes a fresh state bag. *)
Definition x0 : term := Input "x" [2; 5; 8].
Definition enc0 : term := Input "enc_out" [2; 7; 8].
Definition world (bag : option nat) (draws : nat) : World :=
  @mkWorld tagged bag draws.
Definition w0 : World := world (Some 0%nat) 0%nat.

End Tagged.

(** ** Collaborators over integers

    A second instance of the collaborators, in which the torch primitives
    compute.  A tensor is a constant vector, given by its length and the
    value of its entries; addition and multiplication act on the entries, a
    parameter initialised with [ones_] has the entries 1.  Dropout in
    training mode zeroes its input and advances the generator. *)
Module Numeric.

Record vector : Type := Vec { len : Z; entry : Z }.

Definition numeric : Torch := {|
  Tensor := vector;
  Mask := unit;
  Bag := nat;
  Rng := nat;
  ModExn := string;
  Device := unit;
  Dtype := unit;
  shape := fun t => [len t];
  tensor_add := fun a b => Returned (Vec (len a) (entry a + entry b));
  torch_mul := fun s t => Returned (Vec (len t) (entry s * entry t));
  F_dropout := fun t _ train draws =>
    if train then (Returned (Vec (len t) 0), S draws) else (Returned t, draws);
  torch_empty := fun d _ _ => Vec d 0;
  nn_init_ones_ := fun t => Vec (len t) 1;
  LayerNorm := unit;
  LayerNorm_new := fun _ _ _ _ => tt;
  LayerNorm_forward := fun _ t => Returned (Vec (len t) (Z.sgn (entry t)))
|}.

(** An attention module that adds the keys to the query. *)
Definition attention (dim : Z) : @MultiheadAttention numeric :=
  @Build_MultiheadAttention numeric dim
    (fun (q k v : vector) (attn_mask padding_mask : option unit) (bag : option nat) =>
       (Returned (Vec (len q) (entry q + entry k)), S <$> bag)).

Definition network (dim : Z) : @FeedForwardNetwork numeric :=
  @Build_FeedForwardNetwork numeric dim
    (fun t : vector => Returned (Vec (len t) (2 * entry t + 1))).

Definition w0 : @World numeric := @mkWorld numeric (Some 0%nat) 0%nat.

End Numeric.

(** ** The NLLB checkpoint loader *)

Module NllbLoader.

(** *** The fragment of Python's [re] that the key map is written in

    A pattern is [^] followed by literal characters (word characters, or any
    other character escaped with a backslash) and capturing groups
    [([0-9]+)].  A replacement is literal text with back-references [\1] to
    [\9].  Anything else is outside the fragment ([None]). *)
Inductive atom : Type :=
| Lit (c : ascii)
| Digits.                       (* the capturing group ([0-9]+) *)

Inductive titem : Type :=
| TLit (c : ascii)
| TGroup (n : nat).             (* the back-reference \n *)

Definition is_digit (c : ascii) : bool :=
  let n := nat_of_ascii c in (48 <=? n)%nat && (n <=? 57)%nat.

Definition is_word (c : ascii) : bool :=
  let n := nat_of_ascii c in
  is_digit c
  || ((65 <=? n)%nat && (n <=? 90)%nat)
  || ((97 <=? n)%nat && (n <=? 122)%nat)
  || (n =? 95)%nat.

Fixpoint parse_atoms (s : string) : option (list atom) :=
  match s with
  | EmptyString => Some []
  | String "\" (String c rest) =>
      if is_word c then None else cons (Lit c) <$> parse_atoms rest
  | String "(" (String "[" (String "0" (String "-" (String "9"
      (String "]" (String "+" (String ")" rest))))))) =>
      cons Digits <$> parse_atoms rest
  | String c rest =>
      if is_word c then cons (Lit c) <$> parse_atoms rest else None
  end.

(** The patterns of the fragment are anchored at the start of the string. *)
Definition parse_regex (s : string) : option (list atom) :=
  match s with
  | String "^" rest => parse_atoms rest
  | _ => None
  end.

Fixpoint parse_template (s : string) : option (list titem) :=
  match s with
  | EmptyString => Some []
  | String "\" (String c rest) =>
      let followed_by_digit :=
        match rest with String c' _ => is_digit c' | EmptyString => false end in
      if is_digit c && negb (Ascii.eqb c "0") && negb followed_by_digit
      then cons (TGroup (nat_of_ascii c - 48)) <$> parse_template rest
      else None
  | String c rest => cons (TLit c) <$> parse_template rest
  end.

(** The ways [([0-9]+)] can match at the start of [s], longest first: the
    matched digits and what follows them. *)
Fixpoint digit_splits (s : string) : list (string * string) :=
  match s with
  | String c s' =>
      if is_digit c
      then map (fun dr => (String c (fst dr), snd dr)) (digit_splits s')
             ++ [(String c EmptyString, s')]
      else []
  | EmptyString => []
  end.

(** The first alternative that succeeds. *)
Fixpoint first_success {A B} (f : A -> option B) (l : list A) : option B :=
  match l with
  | [] => None
  | a :: l' => match f a with Some b => Some b | None => first_success f l' end
  end.

(** Matching at the start of [s]: the captured groups and the unmatched rest. *)
Fixpoint match_atoms (atoms : list atom) (s : string)
    : option (list string * string) :=
  match atoms with
  | [] => Some ([], s)
  | Lit c :: atoms' =>
      match s with
      | String c' s' => if Ascii.eqb c c' then match_atoms atoms' s' else None
      | EmptyString => None
      end
  | Digits :: atoms' =>
      first_success
        (fun dr =>
           match match_atoms atoms' (snd dr) with
           | Some (groups, rest) => Some (fst dr :: groups, rest)
           | None => None
           end)
        (digit_splits s)
  end.

Fixpoint count_groups (atoms : list atom) : nat :=
  match atoms with
  | [] => 0%nat
  | Digits :: atoms' => S (count_groups atoms')
  | Lit _ :: atoms' => count_groups atoms'
  end.

Definition template_ok (groups : nat) (items : list titem) : bool :=
  forallb (fun i => match i with TGroup n => (n <=? groups)%nat | TLit _ => true end)
    items.

Fixpoint expand (items : list titem) (groups : list string) : option string :=
  match items with
  | [] => Some EmptyString
  | TLit c :: items' => String c <$> expand items' groups
  | TGroup n :: items' =>
      match groups !! (n - 1)%nat, expand items' groups with
      | Some g, Some out => Some (g ++ out)
      | _, _ => None
      end
  end.

(** [re.sub(pattern, repl, key)] for an anchored pattern: at most one match,
    at the start of [key]; a key that does not match is returned unchanged. *)
Definition re_sub (pattern repl key : string) : option string :=
  atoms ← parse_regex pattern;
  items ← parse_template repl;
  if template_ok (count_groups atoms) items
  then match match_atoms atoms key with
       | Some (groups, rest) => out ← expand items groups; Some (out ++ rest)
       | None => Some key
       end
  else None.

(** *** The key map *)

(** A Python [dict] with string keys, in insertion order. *)
Definition dict : Type := list (string * string).

(** [d[k] = v]: an existing key keeps its position and takes the new value. *)
Fixpoint dict_set (k v : string) (d : dict) : dict :=
  match d with
  | [] => [(k, v)]
  | (k', v') :: d' =>
      if String.eqb k k' then (k', v) :: d' else (k', v') :: dict_set k v d'
  end.

(** A dict display [{k1: v1, k2: v2, ...}] inserts its items from left to right. *)
Definition dict_display (items : list (string * string)) : dict :=
  fold_left (fun d kv => dict_set (fst kv) (snd kv) d) items [].

(** The items of the dict display in [_fairseq_key_map], as they are written
    (raw strings: a backslash is a backslash). *)
Definition _fairseq_key_map_items : list (string * string) := [
  ("^decoder\.layers\.([0-9]+)\.self_attn\.out_proj\.",     "decoder.layers.\1.self_attn.output_proj.");
  ("^encoder\.layers\.([0-9]+)\.self_attn\.out_proj\.",     "encoder.layers.\1.self_attn.output_proj.");
  ("^decoder\.layers\.([0-9]+)\.encoder_attn\.out_proj\.",  "decoder.layers.\1.encoder_decoder_attn.output_proj.");
  ("^decoder\.layers\.([0-9]+)\.encoder_attn\.out_proj\.",  "decoder.layers.\1.encoder_decoder_attn.output_proj.");
  ("^decoder\.layers\.([0-9]+)\.encoder_attn\.",            "decoder.layers.\1.encoder_decoder_attn.");
  ("^decoder\.layers\.([0-9]+)\.encoder_attn_layer_norm\.", "decoder.layers.\1.encoder_decoder_attn_layer_norm.");
  ("^encoder\.layers\.([0-9]+)\.fc1\.",                     "encoder.layers.\1.ffn.inner_proj.");
  ("^decoder\.layers\.([0-9]+)\.fc1\.",                     "decoder.layers.\1.ffn.inner_proj.");
  ("^encoder\.layers\.([0-9]+)\.fc2\.",                     "encoder.layers.\1.ffn.output_proj.");
  ("^decoder\.layers\.([0-9]+)\.fc2\.",                     "decoder.layers.\1.ffn.output_proj.");
  ("^encoder\.layers\.([0-9]+)\.final_layer_norm\.",        "encoder.layers.\1.ffn_layer_norm.");
  ("^decoder\.layers\.([0-9]+)\.final_layer_norm\.",        "decoder.layers.\1.ffn_layer_norm.");
  ("^encoder\.embed_tokens\.",                              "encoder_frontend.embed.");
  ("^decoder\.embed_tokens\.",                              "decoder_frontend.embed.");
  ("^decoder\.output_projection\.",                         "final_proj.")
].

(** [NllbLoader._fairseq_key_map] *)
Definition _fairseq_key_map : dict := dict_display _fairseq_key_map_items.

(** The pattern that the display writes twice. *)
Definition encoder_attn_out_proj_pattern : string :=
  "^decoder\.layers\.([0-9]+)\.encoder_attn\.out_proj\.".

(** The right-hand sides written for a pattern, in the order of the display. *)
Definition registered (pattern : string) (items : list (string * string))
    : list string :=
  map snd (List.filter (fun kv => String.eqb (fst kv) pattern) items).

(** [d.get(k)] *)
Fixpoint dict_get (k : string) (d : dict) : option string :=
  match d with
  | [] => None
  | (k', v) :: d' => if String.eqb k k' then Some v else dict_get k d'
  end.

(** Modelled from the spec: [upgrade_fairseq_checkpoint] (module
    [fairseq2.models.utils.checkpoint]) is not among the sources.  The spec
    describes the renaming as an ordered list of (pattern, replacement) pairs
    applied in sequence, in declaration order, to each key. *)
Definition rename_key (key_map : dict) (key : string) : option string :=
  fold_left (fun k pr => k ← k; re_sub (fst pr) (snd pr) k) key_map (Some key).

(** Modelled from the spec: a second reading of the same sentence about the
    absent [upgrade_fairseq_checkpoint], in which the pairs are tried in
    declaration order and the first one that changes the key decides. *)
Fixpoint rename_key_first_match (key_map : dict) (key : string) : option string :=
  match key_map with
  | [] => Some key
  | (pattern, repl) :: key_map' =>
      new_key ← re_sub pattern repl key;
      if String.eqb new_key key
      then rename_key_first_match key_map' key
      else Some new_key
  end.

(** A layer index as it occurs in a key: a non-empty run of digits. *)
Fixpoint all_digits (s : string) : bool :=
  match s with
  | EmptyString => true
  | String c s' => is_digit c && all_digits s'
  end.

Definition layer_index (s : string) : Prop :=
  s <> EmptyString /\ all_digits s = true.

(** *** The control-token fix-up of [_upgrade_checkpoint] *)

Section ControlTokens.
Context {Row : Type}.

(** [t[idx]] with a list of indices: a new tensor holding the selected rows
    ([None] for Python's IndexError). *)
Definition index_select (idx : list nat) (t : list Row) : option (list Row) :=
  mapM (fun i => t !! i) idx.

(** [t[idx] = vals] with a list of indices: the rows are overwritten in place. *)
Fixpoint index_put (idx : list nat) (vals : list Row) (t : list Row)
    : option (list Row) :=
  match idx, vals with
  | [], [] => Some t
  | i :: idx', v :: vals' =>
      if decide (i < length t)%nat
      then index_put idx' vals' (<[i := v]> t)
      else None
  | _, _ => None
  end.

(** [embeds[[0, 1, 2, 3]] = embeds[[1, 3, 0, 2]]]: the right-hand side is
    read into a new tensor before the rows are overwritten. *)
Definition fix_control_tokens (embeds : list Row) : option (list Row) :=
  vals ← index_select [1; 3; 0; 2]%nat embeds;
  index_put [0; 1; 2; 3]%nat vals embeds.

End ControlTokens.

(** The control tokens, in the order of the rows of a fairseq checkpoint. *)
Inductive control_token : Type := BOS | PAD | EOS | UNK.

(** *** [_upgrade_checkpoint] on a store of objects *)

(** A Python [dict] with string keys and values of type [V], in insertion
    order: [d.get(k)] and [d[k] = v]. *)
Definition pydict (V : Type) : Type := list (string * V).

Fixpoint pydict_get {V} (k : string) (d : pydict V) : option V :=
  match d with
  | [] => None
  | (k', v) :: d' => if String.eqb k k' then Some v else pydict_get k d'
  end.

Fixpoint pydict_set {V} (k : string) (v : V) (d : pydict V) : pydict V :=
  match d with
  | [] => [(k, v)]
  | (k', v') :: d' =>
      if String.eqb k k' then (k', v) :: d' else (k', v') :: pydict_set k v d'
  end.

Section UpgradeCheckpoint.
Context {Row E Config : Type}.

(** The objects a checkpoint is made of.  A tensor is the list of its rows;
    a dict holds the addresses of its values, so that two names can hold the
    same tensor. *)
Inductive object : Type :=
| TensorObj (rows : list Row)
| DictObj (d : pydict nat)
| OtherObj.

(** The store: the object at each address. *)
Abbreviation heap := (list object).

Inductive load_exn : Type :=
| KeyError (key : string)
| IndexError
| NotSubscriptable            (* Python's TypeError on [o[...]] *)
| UpgradeError (e : E).       (* whatever [upgrade_fairseq_checkpoint] raises *)

(** [upgrade_fairseq_checkpoint] is not among the sources: it is a parameter
    of the embedding.  It is handed the checkpoint and the key map, may
    change the store, and returns a checkpoint. *)
Variable upgrade_fairseq_checkpoint :
  pydict nat -> dict -> heap -> result E (pydict nat) * heap.

(** [NllbLoader._upgrade_checkpoint].  An address that the store does not
    hold is treated like an object of the wrong kind. *)
Definition _upgrade_checkpoint (checkpoint : pydict nat) (config : Config)
    (h : heap) : result load_exn (pydict nat) * heap :=
  let key_map := _fairseq_key_map in
  match upgrade_fairseq_checkpoint checkpoint key_map h with
  | (Failed e, h) => (Failed (UpgradeError e), h)
  | (Returned checkpoint, h) =>
      match pydict_get "model" checkpoint with
      | None => (Failed (KeyError "model"), h)
      | Some state_dict =>
          match h !! state_dict with
          | Some (DictObj d) =>
              match pydict_get "final_proj.weight" d with
              | None => (Failed (KeyError "final_proj.weight"), h)
              | Some embeds =>
                  let d := pydict_set "encoder_frontend.embed.weight" embeds d in
                  let d := pydict_set "decoder_frontend.embed.weight" embeds d in
                  let h := <[state_dict := DictObj d]> h in
                  match h !! embeds with
                  | Some (TensorObj rows) =>
                      match fix_control_tokens rows with
                      | Some rows' =>
                          (Returned checkpoint, <[embeds := TensorObj rows']> h)
                      | None => (Failed IndexError, h)
                      end
                  | _ => (Failed NotSubscriptable, h)
                  end
              end
          | _ => (Failed NotSubscriptable, h)
          end
      end
  end.

(** The rows of the tensor that the state dict at address [sd] holds under
    [name]. *)
Definition read_rows (h : heap) (sd : nat) (name : string) : option (list Row) :=
  match h !! sd with
  | Some (DictObj d) =>
      match pydict_get name d with
      | Some a => match h !! a with Some (TensorObj rows) => Some rows | _ => None end
      | None => None
      end
  | _ => None
  end.

End UpgradeCheckpoint.

(** *** The shape of the patterns and replacements of the key map *)

(** [matches pattern key]: the pattern matches at the start of [key]. *)
Definition matches (pattern key : string) : Prop :=
  exists atoms r, parse_regex pattern = Some atoms /\ match_atoms atoms key = Some r.

(** Literal text, optionally followed by a layer index, a dot and more
    literal text. *)
Record shape : Type := mkShape {
  sh_prefix : string;
  sh_tail : option string
}.

(** The strings of a shape. *)
Definition in_shape (sh : shape) (key : string) : Prop :=
  match sh_tail sh with
  | None => exists rest, key = sh_prefix sh ++ rest
  | Some tail =>
      exists n rest,
        layer_index n /\ key = sh_prefix sh ++ n ++ String "." (tail ++ rest)
  end.

Fixpoint split_lits (atoms : list atom) : string * list atom :=
  match atoms with
  | Lit c :: atoms' =>
      let '(l, rest) := split_lits atoms' in (String c l, rest)
  | _ => (EmptyString, atoms)
  end.

Definition pattern_shape (atoms : list atom) : option shape :=
  let '(l1, rest) := split_lits atoms in
  match rest with
  | [] => Some (mkShape l1 None)
  | Digits :: Lit "." :: rest' =>
      let '(l2, rest'') := split_lits rest' in
      match rest'' with
      | [] => Some (mkShape l1 (Some l2))
      | _ => None
      end
  | _ => None
  end.

Fixpoint split_tlits (items : list titem) : string * list titem :=
  match items with
  | TLit c :: items' =>
      let '(l, rest) := split_tlits items' in (String c l, rest)
  | _ => (EmptyString, items)
  end.

Definition template_shape (items : list titem) : option shape :=
  let '(l1, rest) := split_tlits items in
  match rest with
  | [] => Some (mkShape l1 None)
  | TGroup 1 :: TLit "." :: rest' =>
      let '(l2, rest'') := split_tlits rest' in
      match rest'' with
      | [] => Some (mkShape l1 (Some l2))
      | _ => None
      end
  | _ => None
  end.

(** The shapes of a (pattern, replacement) pair: of the keys the pattern
    matches, and of the keys the replacement produces. *)
Definition entry_shapes (pr : string * string) : option (shape * shape) :=
  atoms ← parse_regex (fst pr);
  items ← parse_template (snd pr);
  sp ← pattern_shape atoms;
  st ← template_shape items;
  match sh_tail sp, sh_tail st with
  | None, Some _ => None
  | _, _ => Some (sp, st)
  end.

(** The string of a shape with a given layer index and remainder. *)
Definition render (sh : shape) (n rest : string) : string :=
  match sh_tail sh with
  | None => sh_prefix sh ++ rest
  | Some tail => sh_prefix sh ++ n ++ String "." (tail ++ rest)
  end.

(** Two strings one of which is a prefix of the other. *)
Definition comparable (a b : string) : bool := String.prefix a b || String.prefix b a.

(** A sufficient test for two shapes to have no string in common. *)
Definition disjointb (s1 s2 : shape) : bool :=
  if negb (comparable (sh_prefix s1) (sh_prefix s2)) then true
  else if String.eqb (sh_prefix s1) (sh_prefix s2) then
    match sh_tail s1, sh_tail s2 with
    | Some t1, Some t2 => negb (comparable t1 t2)
    | _, _ => false
    end
  else false.

(** The more general pattern that overlaps with the [out_proj] pattern. *)
Definition encoder_attn_pattern : string :=
  "^decoder\.layers\.([0-9]+)\.encoder_attn\.".

(** Two patterns that are the same, or the known overlapping pair, or have
    shapes without a common string. *)
Definition apart (e1 e2 : string * string) : bool :=
  String.eqb (fst e1) (fst e2)
  || (String.eqb (fst e1) encoder_attn_out_proj_pattern
      && String.eqb (fst e2) encoder_attn_pattern)
  || (String.eqb (fst e1) encoder_attn_pattern
      && String.eqb (fst e2) encoder_attn_out_proj_pattern)
  || match entry_shapes e1, entry_shapes e2 with
     | Some (s1, _), Some (s2, _) => disjointb s1 s2
     | _, _ => false
     end.

(** No pattern of [e2] matches what the replacement of [e1] produces. *)
Definition stable (e1 e2 : string * string) : bool :=
  match entry_shapes e1, entry_shapes e2 with
  | Some (_, t1), Some (s2, _) => disjointb t1 s2
  | _, _ => false
  end.

(** A store with one state dict (address 0) and its embedding matrix
    (address 1), for an upgrade function that returns the checkpoint as it
    is. *)
Definition upgrade_identity (checkpoint : pydict nat) (key_map : dict)
    (h : list (@object nat)) :
    result unit (pydict nat) * list (@object nat) :=
  (Returned checkpoint, h).

Definition store_of (rows : list nat) : list (@object nat) :=
  [DictObj [("final_proj.weight", 1%nat)]; TensorObj rows].

End NllbLoader.

(** ** The configuration manager

    [src/fairseq2/recipes/config_manager.py].  Configurations are kept
    unstructured in a dict under their path; [get_config] hands the one
    asked for to the value converter.  The value converter, the type
    expressions and the dependency resolver are collaborators and are kept
    abstract. *)
Module config_manager.

Section ConfigManager.
Context {Obj TypeExpr Value Detail : Type}.

(** The exceptions that matter here: [StructuredError] of the value
    converter, the two exceptions of this module ([ConfigNotFoundError] is a
    subclass of [ConfigError]), and every other exception of a
    collaborator.  [raise ... from ex] records [ex] as the cause,
    [raise ... from None] records none. *)
#[warnings="-register-all"]
Inductive py_exn : Type :=
| StructuredError (detail : Detail)
| ConfigError (msg : string) (cause : option py_exn)
| ConfigNotFoundError (msg : string)
| OtherError (detail : Detail).

(** [isinstance(e, ConfigError)] *)
Definition isinstance_ConfigError (e : py_exn) : bool :=
  match e with
  | ConfigError _ _ | ConfigNotFoundError _ => true
  | _ => false
  end.

(** [fairseq2.utils.structured.ValueConverter], as far as it is used. *)
Record ValueConverter : Type := {
  structure : Obj -> TypeExpr -> result py_exn Value
}.

(** The interface [ConfigManager]; [default_factory] is [None] or a
    callable without arguments. *)
Class ConfigManager (M : Type) : Type :=
  get_config :
    M -> string -> TypeExpr -> option (unit -> result py_exn Value) ->
    result py_exn Value.

Record StandardConfigManager : Type := mkStandardConfigManager {
  _value_converter : ValueConverter;
  _config_dict : gmap string Obj
}.

(** [StandardConfigManager.__init__] *)
Definition __init__ (value_converter : ValueConverter) : StandardConfigManager :=
  {| _value_converter := value_converter; _config_dict := ∅ |}.

(** [update_config_dict]: [dict.update] overwrites the paths of
    [config_dict] and keeps the others. *)
Definition update_config_dict (self : StandardConfigManager)
    (config_dict : gmap string Obj) : StandardConfigManager :=
  {| _value_converter := _value_converter self;
     _config_dict := config_dict ∪ _config_dict self |}.

Definition not_found_msg (path : string) : string :=
  "The '" ++ path ++ "' configuration is not found.".

Definition cannot_be_parsed_msg (path : string) : string :=
  "The '" ++ path
    ++ "' configuration cannot be parsed. See nested exception for details.".

(** [StandardConfigManager.get_config] *)
#[export] Instance StandardConfigManager_get_config
    : ConfigManager StandardConfigManager :=
  fun self path type_expr default_factory =>
    match _config_dict self !! path with
    | None =>
        match default_factory with
        | Some default_factory => default_factory tt
        | None => Failed (ConfigNotFoundError (not_found_msg path))
        end
    | Some config =>
        match structure (_value_converter self) config type_expr with
        | Failed (StructuredError ex) =>
            Failed (ConfigError (cannot_be_parsed_msg path)
                      (Some (StructuredError ex)))
        | r => r
        end
    end.

(** [fairseq2.dependency.DependencyResolver], as far as [create] uses it:
    what [resolver.resolve(ConfigManager)] ends with. *)
Record DependencyResolver (M : Type) : Type := {
  resolve : result py_exn M
}.
Arguments resolve {M} _.

(** Python's truth value of a type expression, and the [None] that a
    function returns. *)
Variable truthy : TypeExpr -> bool.
Variable py_None : Value.

(** [type_expr or kls] *)
Definition type_expr_or (type_expr : option TypeExpr) (kls : TypeExpr) : TypeExpr :=
  match type_expr with
  | Some t => if truthy t then t else kls
  | None => kls
  end.

(** The factory [create] that [register_config] registers for [kls] under
    the key [path]. *)
Definition create {M} `{ConfigManager M} (path : string) (kls : TypeExpr)
    (type_expr : option TypeExpr)
    (default_factory : option (unit -> result py_exn Value))
    (resolver : DependencyResolver M) : result py_exn Value :=
  match resolve resolver with
  | Failed e => Failed e
  | Returned config_manager =>
      match get_config config_manager path (type_expr_or type_expr kls)
              default_factory with
      | Failed (ConfigNotFoundError _) => Returned py_None
      | r => r
      end
  end.

End ConfigManager.

(** A value converter over integers that rejects the negative ones, and a
    manager that has been updated twice. *)
Definition nonnegative : @ValueConverter Z string Z string := {|
  structure := fun config _ =>
    if (0 <=? config)%Z then Returned config
    else Failed (StructuredError "negative")
|}.

Definition updated_twice : @StandardConfigManager Z string Z string :=
  update_config_dict
    (update_config_dict (__init__ nonnegative) {["lr" := 1; "seed" := 2]})
    {["lr" := -1]}.

End config_manager.

(** * Properties *)

(** ** Reasoning about computations *)

(** Case analysis on the innermost call a computation is stuck on. *)
Ltac case_innermost :=
  match goal with
  | |- context [match ?e with _ => _ end] =>
      lazymatch e with
      | context [match _ with _ => _ end] => fail
      | _ => destruct e eqn:?
      end
  end.

(** Unfolding of the monad and of the vocabulary of sub-blocks. *)
Ltac unfold_blocks :=
  cbv beta delta
    [norm_block post_norm_block pre_norm_block
     self_attn_branch enc_dec_attn_branch ffn_branch
     self_attn_transform enc_dec_attn_transform ffn_transform
     extra_norm_step scale_step dropout_step apply_norm
     call_enc_dec_attn_layer_norm dropout_on
     bind ret raise call call_with_bag call_with_rng propagate].

Ltac run :=
  unfold_blocks; cbn;
  repeat (case_innermost; cbn in *; try congruence);
  try reflexivity.

Section LayerFacts.
Context `{Torch}.

Lemma norm_order_eqb_spec (a b : TransformerNormOrder) :
  norm_order_eqb a b = true <-> a = b.
Proof. destruct a, b; cbn; split; congruence. Qed.

Lemma norm_order_eqb_refl (a : TransformerNormOrder) : norm_order_eqb a a = true.
Proof. now destruct a. Qed.

Lemma norm_order_neq_POST (a : TransformerNormOrder) :
  a = PRE \/ a = PRE_WITH_NORMFORMER -> norm_order_eqb a POST = false.
Proof. now intros [-> | ->]. Qed.

(** *** The three sub-blocks as instances of one template *)

Lemma _forward_self_attn_block (self : Layer) x padding_mask self_attn_mask w :
  _forward_self_attn self x padding_mask self_attn_mask w
  = norm_block (norm_order self)
      (apply_norm (self_attn_layer_norm self))
      (self_attn_branch self padding_mask self_attn_mask)
      ret x w.
Proof.
  unfold _forward_self_attn, dropout_on. destruct w as [bag rng]. run.
Qed.

Lemma _forward_enc_dec_attn_block (self : Layer) attn x e enc_padding_mask w :
  enc_dec_attn self = Some attn ->
  _forward_enc_dec_attn self x (Some e) enc_padding_mask w
  = norm_block (norm_order self)
      (call_enc_dec_attn_layer_norm self)
      (enc_dec_attn_branch self attn e enc_padding_mask)
      ret x w.
Proof.
  intros Hattn. unfold _forward_enc_dec_attn, dropout_on. rewrite Hattn.
  destruct w as [bag rng]. run.
Qed.

Lemma _forward_ffn_block (self : Layer) x w :
  _forward_ffn self x w
  = norm_block (norm_order self)
      (apply_norm (ffn_layer_norm self))
      (ffn_branch self)
      (scale_step self) x w.
Proof.
  unfold _forward_ffn, dropout_on. destruct w as [bag rng]. run.
Qed.

(** *** What the constructor builds *)

Lemma __init___Ok sa eda net sr p order eps dev dt (self : Layer) :
  __init__ sa eda net sr p order eps dev dt = Ok self ->
  let d := mha_model_dim sa in
  let norm := LayerNorm_new d eps dev dt in
  self = mkLayer d sa
           (if norm_order_eqb order PRE_WITH_NORMFORMER then Some norm else None)
           norm eda (match eda with Some _ => Some norm | None => None end) net
           (if sr then Some (nn_init_ones_ (torch_empty d dev dt)) else None)
           norm p order true
  /\ (forall a, eda = Some a -> mha_model_dim a = d)
  /\ ffn_model_dim net = d.
Proof.
  unfold __init__. intros Hinit.
  destruct eda as [a|]; cbn in Hinit.
  - destruct (Z.eqb_spec (mha_model_dim a) (mha_model_dim sa)) as [Ha|Ha];
      cbn in Hinit; [|discriminate].
    destruct (Z.eqb_spec (ffn_model_dim net) (mha_model_dim sa)) as [Hf|Hf];
      cbn in Hinit; [|discriminate].
    injection Hinit as <-. destruct sr; cbn; repeat split; try assumption.
    all: intros ? [= <-]; assumption.
  - destruct (Z.eqb_spec (ffn_model_dim net) (mha_model_dim sa)) as [Hf|Hf];
      cbn in Hinit; [|discriminate].
    injection Hinit as <-. destruct sr; cbn; repeat split; try assumption.
    all: intros ? [=].
Qed.

End LayerFacts.

(** ** Placement of the layer norms *)

(** C1.  For every layer and every input [x]: under [POST] each sub-block
    (self attention, cross attention when it runs, feed-forward) hands [x]
    itself to its branch and applies its layer norm to the residual sum;
    under [PRE] and [PRE_WITH_NORMFORMER] it applies its layer norm to [x]
    before the branch and returns the residual sum as it is.  The layer norm
    of the cross-attention sub-block is the module stored in
    [enc_dec_attn_layer_norm], which every constructed layer with a
    cross-attention module holds. *)
Theorem norm_placement `{Torch} (self : Layer) (x : Tensor)
    (padding_mask self_attn_mask enc_padding_mask : option Mask) (w : World) :
  (norm_order self = POST ->
     _forward_self_attn self x padding_mask self_attn_mask w
     = post_norm_block (apply_norm (self_attn_layer_norm self))
         (self_attn_branch self padding_mask self_attn_mask) ret x w
     /\ (forall attn norm e,
           enc_dec_attn self = Some attn ->
           enc_dec_attn_layer_norm self = Some norm ->
           _forward_enc_dec_attn self x (Some e) enc_padding_mask w
           = post_norm_block (apply_norm norm)
               (enc_dec_attn_branch self attn e enc_padding_mask) ret x w)
     /\ _forward_ffn self x w
        = post_norm_block (apply_norm (ffn_layer_norm self))
            (ffn_branch self) (scale_step self) x w)
  /\ (norm_order self = PRE \/ norm_order self = PRE_WITH_NORMFORMER ->
     _forward_self_attn self x padding_mask self_attn_mask w
     = pre_norm_block (apply_norm (self_attn_layer_norm self))
         (self_attn_branch self padding_mask self_attn_mask) ret x w
     /\ (forall attn norm e,
           enc_dec_attn self = Some attn ->
           enc_dec_attn_layer_norm self = Some norm ->
           _forward_enc_dec_attn self x (Some e) enc_padding_mask w
           = pre_norm_block (apply_norm norm)
               (enc_dec_attn_branch self attn e enc_padding_mask) ret x w)
     /\ _forward_ffn self x w
        = pre_norm_block (apply_norm (ffn_layer_norm self))
            (ffn_branch self) (scale_step self) x w)
  /\ (forall sa eda net sr p order eps dev dt (built : Layer) attn,
        __init__ sa eda net sr p order eps dev dt = Ok built ->
        enc_dec_attn built = Some attn ->
        enc_dec_attn_layer_norm built
        = Some (LayerNorm_new (mha_model_dim sa) eps dev dt)).
Proof.
  split; [|split].
  - intros Horder. split; [|split].
    + rewrite _forward_self_attn_block. unfold norm_block. now rewrite Horder.
    + intros attn norm e Hattn Hnorm.
      rewrite (_forward_enc_dec_attn_block _ attn) by assumption.
      unfold norm_block, call_enc_dec_attn_layer_norm.
      rewrite Horder, Hnorm. reflexivity.
    + rewrite _forward_ffn_block. unfold norm_block. now rewrite Horder.
  - intros Horder. apply norm_order_neq_POST in Horder. split; [|split].
    + rewrite _forward_self_attn_block. unfold norm_block. now rewrite Horder.
    + intros attn norm e Hattn Hnorm.
      rewrite (_forward_enc_dec_attn_block _ attn) by assumption.
      unfold norm_block, call_enc_dec_attn_layer_norm.
      rewrite Horder, Hnorm. reflexivity.
    + rewrite _forward_ffn_block. unfold norm_block. now rewrite Horder.
  - intros sa eda net sr p order eps dev dt built attn Hinit Hattn.
    apply __init___Ok in Hinit as (-> & _). cbn in *.
    now rewrite Hattn.
Qed.

(** With tagging collaborators the placement can be read off the result: a
    post-norm layer returns a normed sum whose attention saw the raw input, a
    pre-norm layer returns a bare sum whose attention saw the normed input;
    in the cross-attention sub-block the norm is the one stored in
    [enc_dec_attn_layer_norm]. *)
Lemma norm_placement_witness :
  (norm_order (Tagged.layer POST true false None 0%float true) = POST
   /\ _forward_self_attn (Tagged.layer POST true false None 0%float true)
        Tagged.x0 None None Tagged.w0
      = (Ok (Tagged.Normed "self_attn_layer_norm"
               (Tagged.Added
                  (Tagged.Attended "self_attn" Tagged.x0 Tagged.x0 Tagged.x0
                     None None (Some 0%nat))
                  Tagged.x0)),
         Tagged.world (Some 1%nat) 0%nat)
   /\ _forward_enc_dec_attn (Tagged.layer POST true false None 0%float true)
        Tagged.x0 (Some Tagged.enc0) None Tagged.w0
      = (Ok (Tagged.Normed "enc_dec_attn_layer_norm"
               (Tagged.Added
                  (Tagged.Attended "enc_dec_attn" Tagged.x0 Tagged.enc0
                     Tagged.enc0 None None (Some 0%nat))
                  Tagged.x0)),
         Tagged.world (Some 1%nat) 0%nat))
  /\ (norm_order (Tagged.layer PRE true false None 0%float true) = PRE
      /\ _forward_ffn (Tagged.layer PRE true false None 0%float true)
           Tagged.x0 Tagged.w0
         = (Ok (Tagged.Added
                  (Tagged.FedForward (Tagged.Normed "ffn_layer_norm" Tagged.x0))
                  Tagged.x0),
            Tagged.w0)
      /\ _forward_enc_dec_attn (Tagged.layer PRE true false None 0%float true)
           Tagged.x0 (Some Tagged.enc0) None Tagged.w0
         = (Ok (Tagged.Added
                  (Tagged.Attended "enc_dec_attn"
                     (Tagged.Normed "enc_dec_attn_layer_norm" Tagged.x0)
                     Tagged.enc0 Tagged.enc0 None None (Some 0%nat))
                  Tagged.x0),
            Tagged.world (Some 1%nat) 0%nat)).
Proof.
  split; (split; [reflexivity|]); split.
  - rewrite (proj1 (proj1 (norm_placement
               (Tagged.layer POST true false None 0%float true)
               Tagged.x0 None None None Tagged.w0) eq_refl)).
    reflexivity.
  - etrans; [|reflexivity].
    apply (proj1 (proj2 (proj1 (norm_placement
               (Tagged.layer POST true false None 0%float true)
               Tagged.x0 None None None Tagged.w0) eq_refl))
               (Tagged.attention "enc_dec_attn" 8) "enc_dec_attn_layer_norm"
               Tagged.enc0 eq_refl eq_refl).
  - rewrite (proj2 (proj2 (proj1 (proj2 (norm_placement
               (Tagged.layer PRE true false None 0%float true)
               Tagged.x0 None None None Tagged.w0)) (or_introl eq_refl)))).
    reflexivity.
  - etrans; [|reflexivity].
    apply (proj1 (proj2 (proj1 (proj2 (norm_placement
               (Tagged.layer PRE true false None 0%float true)
               Tagged.x0 None None None Tagged.w0)) (or_introl eq_refl)))
               (Tagged.attention "enc_dec_attn" 8) "enc_dec_attn_layer_norm"
               Tagged.enc0 eq_refl eq_refl).
Defined.

(** ** Exceptions *)

Section Exceptions.
Context `{Torch}.

Lemma raises_only_ret {A} P (a : A) : raises_only P (ret a).
Proof. intros w e [=]. Qed.

Lemma raises_only_bind {A B} P (m : M A) (k : A -> M B) :
  raises_only P m -> (forall a, raises_only P (k a)) -> raises_only P (bind m k).
Proof.
  intros Hm Hk w e. unfold bind.
  destruct (m w) as [[a|e'] w'] eqn:Hmw; cbn.
  - apply Hk.
  - intros [= <-]. apply (Hm w). now rewrite Hmw.
Qed.

Lemma raises_only_weaken {A} (P Q : exn ModExn -> Prop) (m : M A) :
  (forall e, P e -> Q e) -> raises_only P m -> raises_only Q m.
Proof. intros HPQ Hm w e He. eauto. Qed.

Lemma is_ModuleError_not_ValueError e : is_ModuleError e -> not_ValueError e.
Proof. now destruct e. Qed.

Lemma raises_only_call {A} (r : result ModExn A) :
  raises_only is_ModuleError (call r).
Proof. intros w e. destruct r; cbn; [discriminate | now intros [= <-]]. Qed.

Lemma raises_only_call_with_bag {A}
    (f : option Bag -> result ModExn A * option Bag) :
  raises_only is_ModuleError (call_with_bag f).
Proof.
  intros w e. unfold call_with_bag. destruct (f (st_bag w)) as [[a|e'] b]; cbn;
    [discriminate | now intros [= <-]].
Qed.

Lemma raises_only_call_with_rng {A} (f : Rng -> result ModExn A * Rng) :
  raises_only is_ModuleError (call_with_rng f).
Proof.
  intros w e. unfold call_with_rng. destruct (f (st_rng w)) as [[a|e'] g]; cbn;
    [discriminate | now intros [= <-]].
Qed.

End Exceptions.

(** Decomposition of a computation along its binds and branches. *)
Ltac raises_only_step :=
  first
    [ apply raises_only_ret
    | apply raises_only_call
    | apply raises_only_call_with_bag
    | apply raises_only_call_with_rng
    | apply raises_only_bind; [| intros ?]
    | match goal with
      | |- raises_only _ (if ?b then _ else _) => destruct b
      | |- raises_only _ (match ?o with Some _ => _ | None => _ end) =>
          destruct o eqn:?
      end ].

Section ExceptionsOfTheLayer.
Context `{Torch}.

Lemma _forward_self_attn_raises (self : Layer) x padding_mask self_attn_mask :
  raises_only is_ModuleError
    (_forward_self_attn self x padding_mask self_attn_mask).
Proof. unfold _forward_self_attn. repeat raises_only_step. Qed.

Lemma _forward_ffn_raises (self : Layer) x :
  raises_only is_ModuleError (_forward_ffn self x).
Proof. unfold _forward_ffn. repeat raises_only_step. Qed.

(** Past its two guards, the cross-attention sub-block raises no
    [ValueError]; with its layer norm in place, only collaborators raise. *)
Lemma cross_attention_raises (self : Layer) attn x e enc_padding_mask :
  enc_dec_attn self = Some attn ->
  raises_only not_ValueError
    (_forward_enc_dec_attn self x (Some e) enc_padding_mask)
  /\ (is_Some (enc_dec_attn_layer_norm self) ->
      raises_only is_ModuleError
        (_forward_enc_dec_attn self x (Some e) enc_padding_mask)).
Proof.
  intros Hattn. unfold _forward_enc_dec_attn, call_enc_dec_attn_layer_norm.
  rewrite Hattn. split.
  - destruct (enc_dec_attn_layer_norm self).
    + apply (raises_only_weaken is_ModuleError);
        [apply is_ModuleError_not_ValueError | repeat raises_only_step].
    + repeat first
        [ apply raises_only_bind; [| intros ?]
        | match goal with
          | |- raises_only _ (if ?b then _ else _) => destruct b
          end
        | apply raises_only_ret
        | (apply (raises_only_weaken is_ModuleError);
             [apply is_ModuleError_not_ValueError | raises_only_step])
        | (intros w' e' [= <-]; exact I) ].
  - intros [n Hn]. rewrite Hn. repeat raises_only_step.
Qed.

(** The guards of the cross-attention sub-block. *)
Lemma _forward_enc_dec_attn_guard (self : Layer) x enc_out enc_padding_mask w :
  _forward_enc_dec_attn self x enc_out enc_padding_mask w
  = match enc_dec_attn self, enc_out with
    | None, Some _ => (Raise (ValueError enc_out_must_be_None), w)
    | None, None => (Ok x, w)
    | Some _, None => (Raise (ValueError enc_out_must_not_be_None), w)
    | Some _, Some _ => _forward_enc_dec_attn self x enc_out enc_padding_mask w
    end.
Proof.
  unfold _forward_enc_dec_attn.
  destruct (enc_dec_attn self), enc_out; reflexivity.
Qed.

(** [forward] runs the three sub-blocks one after the other. *)
Lemma forward_steps (self : Layer) x padding_mask self_attn_mask
    enc_out enc_padding_mask w :
  forward self x padding_mask self_attn_mask enc_out enc_padding_mask w
  = match _forward_self_attn self x padding_mask self_attn_mask w with
    | (Ok y, w1) =>
        match _forward_enc_dec_attn self y enc_out enc_padding_mask w1 with
        | (Ok z, w2) => _forward_ffn self z w2
        | (Raise e, w2) => (Raise e, w2)
        end
    | (Raise e, w1) => (Raise e, w1)
    end.
Proof.
  unfold forward, bind, ret.
  destruct (_forward_self_attn _ _ _ _ _) as [[y|e] w1]; [|reflexivity].
  destruct (_forward_enc_dec_attn _ _ _ _ _) as [[z|e] w2]; [|reflexivity].
  now destruct (_forward_ffn _ _ _) as [[a|e] w3].
Qed.

(** A [ValueError] out of [forward] comes from a guard of the cross-attention
    sub-block, entered after the self-attention sub-block has returned. *)
Lemma forward_ValueError (self : Layer) x padding_mask self_attn_mask
    enc_out enc_padding_mask w msg w' :
  forward self x padding_mask self_attn_mask enc_out enc_padding_mask w
  = (Raise (ValueError msg), w') ->
  exists y,
    _forward_self_attn self x padding_mask self_attn_mask w = (Ok y, w')
    /\ _forward_enc_dec_attn self y enc_out enc_padding_mask w'
       = (Raise (ValueError msg), w')
    /\ ((enc_dec_attn self = None /\ is_Some enc_out
         /\ msg = enc_out_must_be_None)
        \/ (is_Some (enc_dec_attn self) /\ enc_out = None
            /\ msg = enc_out_must_not_be_None)).
Proof.
  rewrite forward_steps.
  destruct (_forward_self_attn _ _ _ _ _) as [[y|e] w1] eqn:Hsa.
  - destruct (_forward_enc_dec_attn self y _ _ w1) as [[z|e] w2] eqn:Hcross.
    + intros Hffn. exfalso.
      apply (_forward_ffn_raises self z w2 (ValueError msg)).
      now rewrite Hffn.
    + intros [= -> ->]. rewrite _forward_enc_dec_attn_guard in Hcross.
      destruct (enc_dec_attn self) as [attn|] eqn:Hattn, enc_out as [e|].
      * exfalso.
        apply (proj1 (cross_attention_raises self attn y e enc_padding_mask Hattn)
                 w1 (ValueError msg)).
        now rewrite Hcross.
      * injection Hcross as <- <-. exists y.
        split; [reflexivity|]. split; [now rewrite _forward_enc_dec_attn_guard, Hattn|].
        right. repeat split; eauto.
      * injection Hcross as <- <-. exists y.
        split; [reflexivity|]. split; [now rewrite _forward_enc_dec_attn_guard, Hattn|].
        left. repeat split; eauto.
      * discriminate.
  - intros [= -> ->]. exfalso.
    apply (_forward_self_attn_raises self x padding_mask self_attn_mask w
             (ValueError msg)).
    now rewrite Hsa.
Qed.

End ExceptionsOfTheLayer.

(** ** The encoder output and the cross-attention module *)

(** C2.  For a layer constructed without a cross-attention module, a forward
    call with an encoder output raises the invalid-argument error; for a
    layer constructed with one, a forward call without an encoder output
    raises it.  The error is raised by the guards of the cross-attention
    sub-block, which [forward] enters once the self-attention sub-block has
    returned; a forward call with such arguments always raises, and what it
    raises is this error unless a collaborator of the self-attention
    sub-block has raised before.  In
    the other cases the sub-block raises nothing of its own: it passes [x]
    through (decoder-only layer) or raises only what a collaborator raises. *)
Theorem enc_out_mutual_exclusivity `{Torch}
    sa eda net sr p order eps dev dt (self : Layer)
    (x : Tensor) (padding_mask self_attn_mask : option Mask)
    (enc_out : option Tensor) (enc_padding_mask : option Mask) (w : World) :
  __init__ sa eda net sr p order eps dev dt = Ok self ->
  (eda = None -> is_Some enc_out ->
     _forward_enc_dec_attn self x enc_out enc_padding_mask w
     = (Raise (ValueError enc_out_must_be_None), w)
     /\ (forall y w1,
           _forward_self_attn self x padding_mask self_attn_mask w = (Ok y, w1) ->
           forward self x padding_mask self_attn_mask enc_out enc_padding_mask w
           = (Raise (ValueError enc_out_must_be_None), w1))
     /\ (exists e w',
           forward self x padding_mask self_attn_mask enc_out enc_padding_mask w
           = (Raise e, w')
           /\ (e = ValueError enc_out_must_be_None \/ is_ModuleError e)))
  /\ (is_Some eda -> enc_out = None ->
     _forward_enc_dec_attn self x enc_out enc_padding_mask w
     = (Raise (ValueError enc_out_must_not_be_None), w)
     /\ (forall y w1,
           _forward_self_attn self x padding_mask self_attn_mask w = (Ok y, w1) ->
           forward self x padding_mask self_attn_mask enc_out enc_padding_mask w
           = (Raise (ValueError enc_out_must_not_be_None), w1))
     /\ (exists e w',
           forward self x padding_mask self_attn_mask enc_out enc_padding_mask w
           = (Raise e, w')
           /\ (e = ValueError enc_out_must_not_be_None \/ is_ModuleError e)))
  /\ ((is_Some enc_out <-> is_Some eda) ->
     raises_only is_ModuleError
       (_forward_enc_dec_attn self x enc_out enc_padding_mask)
     /\ (eda = None ->
         _forward_enc_dec_attn self x enc_out enc_padding_mask w = (Ok x, w))).
Proof.
  intros Hinit. apply __init___Ok in Hinit as (Hself & _ & _).
  assert (Hattn : enc_dec_attn self = eda) by (rewrite Hself; reflexivity).
  assert (Hnorm : is_Some eda -> is_Some (enc_dec_attn_layer_norm self)).
  { rewrite Hself. intros [a ->]. cbn. eauto. }
  clear Hself.
  assert (Hguard : forall x' w',
             _forward_enc_dec_attn self x' enc_out enc_padding_mask w'
             = match eda, enc_out with
               | None, Some _ => (Raise (ValueError enc_out_must_be_None), w')
               | None, None => (Ok x', w')
               | Some _, None => (Raise (ValueError enc_out_must_not_be_None), w')
               | Some _, Some _ =>
                   _forward_enc_dec_attn self x' enc_out enc_padding_mask w'
               end).
  { intros x' w'. rewrite <- Hattn. apply _forward_enc_dec_attn_guard. }
  split; [|split].
  - intros -> [e ->]. split; [apply Hguard|]. split.
    + intros y w1 Hsa. rewrite forward_steps, Hsa. now rewrite Hguard.
    + rewrite forward_steps.
      destruct (_forward_self_attn _ _ _ _ _) as [[y1|e1] w1] eqn:Hsa.
      * rewrite Hguard. eauto.
      * exists e1, w1. split; [reflexivity|]. right.
        apply (_forward_self_attn_raises self x padding_mask self_attn_mask w).
        now rewrite Hsa.
  - intros [a ->] ->. split; [apply Hguard|]. split.
    + intros y w1 Hsa. rewrite forward_steps, Hsa. now rewrite Hguard.
    + rewrite forward_steps.
      destruct (_forward_self_attn _ _ _ _ _) as [[y1|e1] w1] eqn:Hsa.
      * rewrite Hguard. eauto.
      * exists e1, w1. split; [reflexivity|]. right.
        apply (_forward_self_attn_raises self x padding_mask self_attn_mask w).
        now rewrite Hsa.
  - intros Hmatch. destruct eda as [a|], enc_out as [e|].
    + split; [|discriminate].
      eapply cross_attention_raises; [exact Hattn | eauto].
    + destruct (proj2 Hmatch) as [? [=]]. eauto.
    + destruct (proj1 Hmatch) as [? [=]]. eauto.
    + split; [|intros _; apply Hguard].
      intros w' e. rewrite Hguard. discriminate.
Qed.

(** A decoder-only layer built by the constructor, called with an encoder
    output: the guard raises; the self-attention call has advanced the bag. *)
Lemma enc_out_mutual_exclusivity_witness :
  exists self : Layer,
    __init__ (Tagged.attention "self_attn" 8) None (Tagged.network 8)
      false 0%float POST 0x1.4f8b588e368f1p-17%float None None = Ok self
    /\ forward self Tagged.x0 None None (Some Tagged.enc0) None Tagged.w0
       = (Raise (ValueError enc_out_must_be_None), Tagged.world (Some 1%nat) 0%nat).
Proof.
  eexists. split; [reflexivity|].
  refine (proj1 (proj2 (proj1
    (enc_out_mutual_exclusivity
       (Tagged.attention "self_attn" 8) None (Tagged.network 8)
       false 0%float POST 0x1.4f8b588e368f1p-17%float None None _
       Tagged.x0 None None (Some Tagged.enc0) None Tagged.w0 eq_refl)
    eq_refl (ex_intro _ Tagged.enc0 eq_refl))) _ _ _).
  reflexivity.
Defined.

(** The guard is reached only after the self-attention sub-block: what the
    self-attention module raises propagates first, and the bag is left as the
    module left it. *)
Lemma self_attn_failure_comes_first :
  forward Tagged.broken_layer Tagged.x0 None None (Some Tagged.enc0) None Tagged.w0
  = (Raise (ModuleError "attention failed"), Tagged.w0).
Proof. reflexivity. Qed.

(** C10.  When [forward] raises the invalid-argument error about [enc_out],
    the self-attention sub-block has returned normally before, and the world
    the error leaves behind is the one the self-attention sub-block left,
    state bag included.  With an attention module that advances the bag, the
    bag after the failed call differs from the bag before it. *)
Theorem enc_out_error_follows_self_attn :
  (forall (T : Torch) (self : Layer) (x : Tensor)
      (padding_mask self_attn_mask : option Mask)
      (enc_out : option Tensor) (enc_padding_mask : option Mask)
      (w w' : World) (msg : string),
      forward self x padding_mask self_attn_mask enc_out enc_padding_mask w
      = (Raise (ValueError msg), w') ->
      exists y,
        _forward_self_attn self x padding_mask self_attn_mask w = (Ok y, w')
        /\ _forward_enc_dec_attn self y enc_out enc_padding_mask w'
           = (Raise (ValueError msg), w')
        /\ ((enc_dec_attn self = None /\ is_Some enc_out
             /\ msg = enc_out_must_be_None)
            \/ (is_Some (enc_dec_attn self) /\ enc_out = None
                /\ msg = enc_out_must_not_be_None)))
  /\ (forward (Tagged.layer POST false false None 0%float true)
        Tagged.x0 None None (Some Tagged.enc0) None Tagged.w0
      = (Raise (ValueError enc_out_must_be_None), Tagged.world (Some 1%nat) 0%nat)
      /\ st_bag (Tagged.world (Some 1%nat) 0%nat) <> st_bag Tagged.w0)
  /\ (forward (Tagged.layer PRE true false None 0%float true)
        Tagged.x0 None None None None Tagged.w0
      = (Raise (ValueError enc_out_must_not_be_None),
         Tagged.world (Some 1%nat) 0%nat)).
Proof.
  split; [|split; [split|]].
  - intros T self x pm am enc_out epm w w' msg. apply forward_ValueError.
  - reflexivity.
  - cbn. discriminate.
  - reflexivity.
Qed.

(** The failed call of a decoder-only layer: the self-attention sub-block has
    returned its normed sum and has advanced the bag from step 0 to step 1. *)
Lemma enc_out_error_follows_self_attn_witness :
  exists y,
    _forward_self_attn (Tagged.layer POST false false None 0%float true)
      Tagged.x0 None None Tagged.w0
    = (Ok y, Tagged.world (Some 1%nat) 0%nat)
    /\ _forward_enc_dec_attn (Tagged.layer POST false false None 0%float true)
         y (Some Tagged.enc0) None (Tagged.world (Some 1%nat) 0%nat)
       = (Raise (ValueError enc_out_must_be_None), Tagged.world (Some 1%nat) 0%nat)
    /\ ((enc_dec_attn (Tagged.layer POST false false None 0%float true) = None
         /\ is_Some (Some Tagged.enc0)
         /\ enc_out_must_be_None = enc_out_must_be_None)
        \/ (is_Some (enc_dec_attn (Tagged.layer POST false false None 0%float true))
            /\ Some Tagged.enc0 = None
            /\ enc_out_must_be_None = enc_out_must_not_be_None)).
Proof.
  exact (proj1 enc_out_error_follows_self_attn Tagged.tagged
           (Tagged.layer POST false false None 0%float true)
           Tagged.x0 None None (Some Tagged.enc0) None Tagged.w0
           (Tagged.world (Some 1%nat) 0%nat) enc_out_must_be_None eq_refl).
Defined.

(** ** The dimension check of the constructor *)

(** C5.  The constructor raises a configuration error, and returns no layer,
    when the cross-attention module (if any) or the feed-forward network
    declares a model dimension other than that of the self-attention module;
    when the declared dimensions agree it returns a layer of that dimension.
    The check belongs to the constructor alone: no forward call raises either
    of the two dimension errors. *)
Theorem dimension_check_at_construction `{Torch}
    sa eda net sr p order eps dev dt :
  (forall a, eda = Some a -> mha_model_dim a <> mha_model_dim sa ->
     __init__ sa eda net sr p order eps dev dt
     = Raise (ValueError
                (enc_dec_attn_dim_msg (mha_model_dim a) (mha_model_dim sa))))
  /\ ((forall a, eda = Some a -> mha_model_dim a = mha_model_dim sa) ->
      ffn_model_dim net <> mha_model_dim sa ->
      __init__ sa eda net sr p order eps dev dt
      = Raise (ValueError (ffn_dim_msg (ffn_model_dim net) (mha_model_dim sa))))
  /\ ((forall a, eda = Some a -> mha_model_dim a = mha_model_dim sa) ->
      ffn_model_dim net = mha_model_dim sa ->
      exists self,
        __init__ sa eda net sr p order eps dev dt = Ok self
        /\ model_dim self = mha_model_dim sa
        /\ self_attn self = sa /\ enc_dec_attn self = eda /\ ffn self = net)
  /\ (forall (self : Layer) x padding_mask self_attn_mask
        enc_out enc_padding_mask w got expected,
        fst (forward self x padding_mask self_attn_mask enc_out enc_padding_mask w)
        <> Raise (ValueError (enc_dec_attn_dim_msg got expected))
        /\ fst (forward self x padding_mask self_attn_mask enc_out
                  enc_padding_mask w)
           <> Raise (ValueError (ffn_dim_msg got expected))).
Proof.
  split; [|split; [|split]].
  - intros a -> Ha. unfold __init__.
    now destruct (Z.eqb_spec (mha_model_dim a) (mha_model_dim sa)).
  - intros Heda Hnet. unfold __init__.
    destruct eda as [a|].
    + rewrite (Heda a eq_refl), Z.eqb_refl. cbn.
      now destruct (Z.eqb_spec (ffn_model_dim net) (mha_model_dim sa)).
    + now destruct (Z.eqb_spec (ffn_model_dim net) (mha_model_dim sa)).
  - intros Heda Hnet. unfold __init__.
    destruct eda as [a|].
    + rewrite (Heda a eq_refl), Z.eqb_refl. cbn.
      rewrite Hnet, Z.eqb_refl. cbn. eexists. repeat split.
    + rewrite Hnet, Z.eqb_refl. cbn. eexists. repeat split.
  - intros self x pm am enc_out epm w got expected.
    destruct (forward self x pm am enc_out epm w) as [o w'] eqn:Hfwd. cbn.
    split; intros ->; apply forward_ValueError in Hfwd
      as (y & _ & _ & [(_ & _ & Hmsg) | (_ & _ & Hmsg)]);
      unfold enc_dec_attn_dim_msg, ffn_dim_msg in Hmsg; cbn in Hmsg;
      discriminate Hmsg.
Qed.

(** A cross-attention module of dimension 9 beside a self-attention module of
    dimension 8 is refused, with the message of the source. *)
Lemma dimension_check_at_construction_witness :
  __init__ (Tagged.attention "self_attn" 8)
    (Some (Tagged.attention "enc_dec_attn" 9)) (Tagged.network 8)
    false 0%float POST 0x1.4f8b588e368f1p-17%float None None
  = Raise (ValueError
      "`model_dim` of `enc_dec_attn` (9) does not match `model_dim` of `self_attn` (8).").
Proof.
  refine (proj1 (dimension_check_at_construction
                   (Tagged.attention "self_attn" 8)
                   (Some (Tagged.attention "enc_dec_attn" 9)) (Tagged.network 8)
                   false 0%float POST 0x1.4f8b588e368f1p-17%float None None)
            (Tagged.attention "enc_dec_attn" 9) eq_refl _).
  cbn. lia.
Defined.

(** ** The residual scale and the extra norm *)

Section AttributesUsed.
Context `{Torch}.

(** The attention sub-blocks do not read [residual_scale]. *)
Lemma self_attn_ignores_residual_scale (self : Layer) s x padding_mask
    self_attn_mask w :
  _forward_self_attn (with_residual_scale self s) x padding_mask self_attn_mask w
  = _forward_self_attn self x padding_mask self_attn_mask w.
Proof. reflexivity. Qed.

Lemma enc_dec_attn_ignores_residual_scale (self : Layer) s x enc_out
    enc_padding_mask w :
  _forward_enc_dec_attn (with_residual_scale self s) x enc_out enc_padding_mask w
  = _forward_enc_dec_attn self x enc_out enc_padding_mask w.
Proof. reflexivity. Qed.

(** The cross-attention and feed-forward sub-blocks do not read
    [self_attn_norm]. *)
Lemma enc_dec_attn_ignores_self_attn_norm (self : Layer) n x enc_out
    enc_padding_mask w :
  _forward_enc_dec_attn (with_self_attn_norm self n) x enc_out enc_padding_mask w
  = _forward_enc_dec_attn self x enc_out enc_padding_mask w.
Proof. reflexivity. Qed.

Lemma ffn_ignores_self_attn_norm (self : Layer) n x w :
  _forward_ffn (with_self_attn_norm self n) x w = _forward_ffn self x w.
Proof. reflexivity. Qed.

End AttributesUsed.

(** C3.  A layer constructed with [scale_residual = True] holds a residual
    scale (initialised to ones).  Whenever a layer holds a residual scale,
    the feed-forward sub-block multiplies its residual by it, with
    [torch.mul], before the residual add; the self-attention and
    cross-attention sub-blocks add their residual as it is, and their result
    does not depend on the residual scale at all. *)
Theorem residual_scale_scope `{Torch} :
  (forall sa eda net p order eps dev dt (self : Layer),
      __init__ sa eda net true p order eps dev dt = Ok self ->
      residual_scale self
      = Some (nn_init_ones_ (torch_empty (mha_model_dim sa) dev dt)))
  /\ (forall (self : Layer) (scale : Tensor),
        residual_scale self = Some scale ->
        forall x padding_mask self_attn_mask enc_padding_mask w,
          _forward_ffn self x w
          = norm_block (norm_order self)
              (apply_norm (ffn_layer_norm self))
              (ffn_branch self)
              (fun residual => call (torch_mul scale residual)) x w
          /\ _forward_self_attn self x padding_mask self_attn_mask w
             = norm_block (norm_order self)
                 (apply_norm (self_attn_layer_norm self))
                 (self_attn_branch self padding_mask self_attn_mask)
                 ret x w
          /\ (forall attn e, enc_dec_attn self = Some attn ->
                _forward_enc_dec_attn self x (Some e) enc_padding_mask w
                = norm_block (norm_order self)
                    (call_enc_dec_attn_layer_norm self)
                    (enc_dec_attn_branch self attn e enc_padding_mask)
                    ret x w)
          /\ (forall s,
                _forward_self_attn (with_residual_scale self s) x
                  padding_mask self_attn_mask w
                = _forward_self_attn self x padding_mask self_attn_mask w)
          /\ (forall s enc_out,
                _forward_enc_dec_attn (with_residual_scale self s) x
                  enc_out enc_padding_mask w
                = _forward_enc_dec_attn self x enc_out enc_padding_mask w)).
Proof.
  split.
  - intros sa eda net p order eps dev dt self Hinit.
    apply __init___Ok in Hinit as (-> & _). reflexivity.
  - intros self scale Hscale x pm am epm w.
    split; [|split; [|split; [|split]]].
    + rewrite _forward_ffn_block.
      unfold norm_block, post_norm_block, pre_norm_block, scale_step.
      now rewrite Hscale.
    + apply _forward_self_attn_block.
    + intros attn e Hattn. now apply _forward_enc_dec_attn_block.
    + intros s. apply self_attn_ignores_residual_scale.
    + intros s enc_out. apply enc_dec_attn_ignores_residual_scale.
Qed.

(** With tagging collaborators: the feed-forward residual is scaled, the
    self-attention residual is the bare input. *)
Lemma residual_scale_scope_witness :
  exists self : Layer,
    __init__ (Tagged.attention "self_attn" 8) None (Tagged.network 8)
      true 0%float PRE 0x1.4f8b588e368f1p-17%float None None = Ok self
    /\ residual_scale self = Some (Tagged.Ones (Tagged.Empty 8))
    /\ _forward_ffn self Tagged.x0 Tagged.w0
       = (Ok (Tagged.Added
                (Tagged.FedForward (Tagged.Normed "LayerNorm" Tagged.x0))
                (Tagged.Scaled (Tagged.Ones (Tagged.Empty 8)) Tagged.x0)),
          Tagged.w0)
    /\ _forward_self_attn self Tagged.x0 None None Tagged.w0
       = (Ok (Tagged.Added
                (Tagged.Attended "self_attn"
                   (Tagged.Normed "LayerNorm" Tagged.x0)
                   (Tagged.Normed "LayerNorm" Tagged.x0)
                   (Tagged.Normed "LayerNorm" Tagged.x0)
                   None None (Some 0%nat))
                Tagged.x0),
          Tagged.world (Some 1%nat) 0%nat).
Proof.
  eexists. split; [reflexivity|].
  pose proof (proj1 residual_scale_scope
                (Tagged.attention "self_attn" 8) None (Tagged.network 8)
                0%float PRE 0x1.4f8b588e368f1p-17%float None None _ eq_refl)
    as Hscale.
  split; [exact Hscale|].
  destruct (proj2 residual_scale_scope _ _ Hscale Tagged.x0 None None None Tagged.w0)
    as (Hffn & Hsa & _).
  split; [rewrite Hffn | rewrite Hsa]; reflexivity.
Defined.

(** C4.  A constructed layer has the extra norm [self_attn_norm] exactly when
    its norm order is [PRE_WITH_NORMFORMER].  It is then applied to the output
    of the self-attention transform, before dropout and before the residual
    add.  Otherwise dropout follows the transform directly, as it does in the
    cross-attention and feed-forward sub-blocks under every norm order; these
    two sub-blocks do not depend on [self_attn_norm]. *)
Theorem normformer_extra_norm `{Torch}
    sa eda net sr p order eps dev dt (self : Layer) :
  __init__ sa eda net sr p order eps dev dt = Ok self ->
  (is_Some (self_attn_norm self) <-> order = PRE_WITH_NORMFORMER)
  /\ forall x padding_mask self_attn_mask enc_padding_mask w,
      (order = PRE_WITH_NORMFORMER ->
         exists extra,
           self_attn_norm self = Some extra
           /\ _forward_self_attn self x padding_mask self_attn_mask w
              = (n <- apply_norm (self_attn_layer_norm self) x ;;
                 y <- self_attn_transform self padding_mask self_attn_mask n ;;
                 y <- apply_norm extra y ;;
                 y <- dropout_step self y ;;
                 call (tensor_add y x)) w)
      /\ (order <> PRE_WITH_NORMFORMER ->
            _forward_self_attn self x padding_mask self_attn_mask w
            = norm_block order
                (apply_norm (self_attn_layer_norm self))
                (fun q =>
                   y <- self_attn_transform self padding_mask self_attn_mask q ;;
                   dropout_step self y)
                ret x w)
      /\ (forall attn e, eda = Some attn ->
            _forward_enc_dec_attn self x (Some e) enc_padding_mask w
            = norm_block order
                (call_enc_dec_attn_layer_norm self)
                (fun q =>
                   y <- enc_dec_attn_transform attn e enc_padding_mask q ;;
                   dropout_step self y)
                ret x w)
      /\ _forward_ffn self x w
         = norm_block order
             (apply_norm (ffn_layer_norm self))
             (fun q => y <- ffn_transform self q ;; dropout_step self y)
             (scale_step self) x w
      /\ (forall n enc_out,
            _forward_enc_dec_attn (with_self_attn_norm self n) x
              enc_out enc_padding_mask w
            = _forward_enc_dec_attn self x enc_out enc_padding_mask w)
      /\ (forall n,
            _forward_ffn (with_self_attn_norm self n) x w
            = _forward_ffn self x w).
Proof.
  intros Hinit. apply __init___Ok in Hinit as (Hself & _).
  assert (Horder : norm_order self = order) by (rewrite Hself; reflexivity).
  assert (Hattn : enc_dec_attn self = eda) by (rewrite Hself; reflexivity).
  assert (Hextra : self_attn_norm self
                   = if norm_order_eqb order PRE_WITH_NORMFORMER
                     then Some (LayerNorm_new (mha_model_dim sa) eps dev dt)
                     else None) by (rewrite Hself; reflexivity).
  clear Hself. split.
  - rewrite Hextra. destruct order; cbn; split;
      first [reflexivity | discriminate | intros [? [=]] | solve [eauto]].
  - intros x pm am epm w.
    split; [|split; [|split; [|split; [|split]]]].
    + intros ->. eexists. split; [exact Hextra|].
      rewrite _forward_self_attn_block, Horder.
      unfold norm_block, pre_norm_block, self_attn_branch, extra_norm_step.
      rewrite Hextra. destruct w as [bag rng]. run.
    + intros Hne. rewrite _forward_self_attn_block, Horder.
      unfold self_attn_branch, extra_norm_step. rewrite Hextra.
      destruct order; try congruence; destruct w as [bag rng]; run.
    + intros attn e ->.
      now rewrite (_forward_enc_dec_attn_block self attn), Horder.
    + now rewrite _forward_ffn_block, Horder.
    + intros n enc_out. apply enc_dec_attn_ignores_self_attn_norm.
    + intros n. apply ffn_ignores_self_attn_norm.
Qed.

(** With tagging collaborators and a dropout probability of one half, in
    training mode: the extra norm wraps the attention output and dropout
    wraps the extra norm. *)
Lemma normformer_extra_norm_witness :
  exists self : Layer,
    __init__ (Tagged.attention "self_attn" 8) None (Tagged.network 8)
      false 0.5%float PRE_WITH_NORMFORMER 0x1.4f8b588e368f1p-17%float None None
    = Ok self
    /\ is_Some (self_attn_norm self)
    /\ _forward_self_attn self Tagged.x0 None None Tagged.w0
       = (Ok (Tagged.Added
                (Tagged.Dropped 0.5 0
                   (Tagged.Normed "LayerNorm"
                      (Tagged.Attended "self_attn"
                         (Tagged.Normed "LayerNorm" Tagged.x0)
                         (Tagged.Normed "LayerNorm" Tagged.x0)
                         (Tagged.Normed "LayerNorm" Tagged.x0)
                         None None (Some 0%nat))))
                Tagged.x0),
          Tagged.world (Some 1%nat) 1%nat).
Proof.
  eexists. split; [reflexivity|].
  destruct (normformer_extra_norm
              (Tagged.attention "self_attn" 8) None (Tagged.network 8)
              false 0.5%float PRE_WITH_NORMFORMER 0x1.4f8b588e368f1p-17%float
              None None _ eq_refl) as [Hiff Hblocks].
  split; [apply Hiff; reflexivity|].
  destruct (proj1 (Hblocks Tagged.x0 None None None Tagged.w0) eq_refl)
    as (extra & Hextra & Hsa).
  injection Hextra as <-. rewrite Hsa. reflexivity.
Defined.

(** ** Determinism without dropout *)

Section RandomNumbers.
Context `{Torch}.

Lemma rng_free_ret {A} (a : A) : rng_free (ret a).
Proof. intros w r. reflexivity. Qed.

Lemma rng_free_raise {A} e : rng_free (raise (A := A) e).
Proof. intros w r. reflexivity. Qed.

Lemma rng_free_call {A} (r : result ModExn A) : rng_free (call r).
Proof. intros w g. reflexivity. Qed.

Lemma rng_free_call_with_bag {A}
    (f : option Bag -> result ModExn A * option Bag) :
  rng_free (call_with_bag f).
Proof.
  intros w g. unfold call_with_bag. cbn.
  now destruct (f (st_bag w)) as [r b].
Qed.

Lemma rng_free_bind {A B} (m : M A) (k : A -> M B) :
  rng_free m -> (forall a, rng_free (k a)) -> rng_free (bind m k).
Proof.
  intros Hm Hk w g. unfold bind. rewrite Hm.
  destruct (m w) as [[a|e] w1]; cbn; [apply Hk | reflexivity].
Qed.

End RandomNumbers.

Ltac rng_free_step :=
  first
    [ apply rng_free_ret
    | apply rng_free_raise
    | apply rng_free_call
    | apply rng_free_call_with_bag
    | apply rng_free_bind; [| intros ?]
    | match goal with
      | |- rng_free (if negb ?b then _ else _) => destruct b; cbn [negb]
      | |- rng_free (if norm_order_eqb ?a ?b then _ else _) =>
          destruct (norm_order_eqb a b)
      | |- rng_free (match ?o with Some _ => _ | None => _ end) => destruct o
      end ].

Section Determinism.
Context `{Torch}.

Lemma dropout_off_at_zero (self : Layer) :
  dropout_p self = 0%float -> dropout_on self = false.
Proof. unfold dropout_on. now intros ->. Qed.

(** With dropout off, no sub-block touches the random number generator. *)
Lemma _forward_self_attn_rng_free (self : Layer) x padding_mask self_attn_mask :
  dropout_on self = false ->
  rng_free (_forward_self_attn self x padding_mask self_attn_mask).
Proof.
  intros Hoff. unfold _forward_self_attn. rewrite Hoff.
  repeat rng_free_step.
Qed.

Lemma _forward_enc_dec_attn_rng_free (self : Layer) x enc_out enc_padding_mask :
  dropout_on self = false ->
  rng_free (_forward_enc_dec_attn self x enc_out enc_padding_mask).
Proof.
  intros Hoff. unfold _forward_enc_dec_attn, call_enc_dec_attn_layer_norm.
  rewrite Hoff. repeat rng_free_step.
Qed.

Lemma _forward_ffn_rng_free (self : Layer) x :
  dropout_on self = false -> rng_free (_forward_ffn self x).
Proof.
  intros Hoff. unfold _forward_ffn. rewrite Hoff. repeat rng_free_step.
Qed.

Lemma forward_rng_free (self : Layer) x padding_mask self_attn_mask
    enc_out enc_padding_mask :
  dropout_on self = false ->
  rng_free (forward self x padding_mask self_attn_mask enc_out enc_padding_mask).
Proof.
  intros Hoff. unfold forward.
  apply rng_free_bind; [now apply _forward_self_attn_rng_free | intros y].
  apply rng_free_bind; [now apply _forward_enc_dec_attn_rng_free | intros z].
  apply rng_free_bind; [now apply _forward_ffn_rng_free | intros a].
  apply rng_free_ret.
Qed.

End Determinism.

(** C7.  The constructor stores the dropout probability it is given.  For a
    layer whose dropout probability is 0, two forward calls on the same
    arguments, started with equal state-bag contents, end with the same
    outcome and the same state-bag contents, whatever the states of the
    random number generator are; and the call leaves the generator as it
    found it (dropout is not invoked). *)
Theorem deterministic_without_dropout `{Torch} :
  (forall sa eda net sr p order eps dev dt (self : Layer),
      __init__ sa eda net sr p order eps dev dt = Ok self -> dropout_p self = p)
  /\ (forall (self : Layer) x padding_mask self_attn_mask enc_out
        enc_padding_mask (w1 w2 : World),
        dropout_p self = 0%float ->
        st_bag w1 = st_bag w2 ->
        let call := forward self x padding_mask self_attn_mask enc_out
                      enc_padding_mask in
        fst (call w1) = fst (call w2)
        /\ st_bag (snd (call w1)) = st_bag (snd (call w2))
        /\ st_rng (snd (call w1)) = st_rng w1
        /\ st_rng (snd (call w2)) = st_rng w2).
Proof.
  split.
  - intros sa eda net sr p order eps dev dt self Hinit.
    apply __init___Ok in Hinit as (-> & _). reflexivity.
  - intros self x pm am enc_out epm w1 w2 Hp Hbag call.
    pose proof (forward_rng_free self x pm am enc_out epm
                  (dropout_off_at_zero self Hp)) as Hfree.
    fold call in Hfree.
    pose proof (Hfree w1 (st_rng w1)) as H1.
    pose proof (Hfree w1 (st_rng w2)) as H12.
    destruct w1 as [b1 r1], w2 as [b2 r2]. cbn in *. subst b2.
    rewrite H12. cbn. repeat split. rewrite H1. reflexivity.
Qed.

(** A layer with dropout probability 0 in training mode, called in two
    worlds that differ in the state of the generator only. *)
Lemma deterministic_without_dropout_witness :
  fst (forward (Tagged.layer PRE true true None 0%float true)
         Tagged.x0 None None (Some Tagged.enc0) None
         (Tagged.world (Some 3%nat) 0%nat))
  = fst (forward (Tagged.layer PRE true true None 0%float true)
           Tagged.x0 None None (Some Tagged.enc0) None
           (Tagged.world (Some 3%nat) 7%nat)).
Proof.
  exact (proj1 (proj2 deterministic_without_dropout
                  (Tagged.layer PRE true true None 0%float true)
                  Tagged.x0 None None (Some Tagged.enc0) None
                  (Tagged.world (Some 3%nat) 0%nat)
                  (Tagged.world (Some 3%nat) 7%nat) eq_refl eq_refl)).
Defined.

(** ** Preservation of the shape *)

Section Returns.
Context `{Torch}.

Lemma returns_ret {A} (P : A -> Prop) (a : A) : P a -> returns P (ret a).
Proof. intros Ha w. now exists a, w. Qed.

Lemma returns_bind {A B} (P : A -> Prop) (Q : B -> Prop) (m : M A) (k : A -> M B) :
  returns P m -> (forall a, P a -> returns Q (k a)) -> returns Q (bind m k).
Proof.
  intros Hm Hk w. destruct (Hm w) as (a & w1 & Hmw & Ha).
  unfold bind. rewrite Hmw. now apply Hk.
Qed.

Lemma returns_call {A} (P : A -> Prop) (r : result ModExn A) :
  (exists a, r = Returned a /\ P a) -> returns P (call r).
Proof. intros (a & -> & Ha) w. now exists a, w. Qed.

Lemma returns_call_with_bag {A} (P : A -> Prop)
    (f : option Bag -> result ModExn A * option Bag) :
  (forall bag, exists a bag', f bag = (Returned a, bag') /\ P a) ->
  returns P (call_with_bag f).
Proof.
  intros Hf w. destruct (Hf (st_bag w)) as (a & bag' & Hfw & Ha).
  unfold call_with_bag. rewrite Hfw. eauto.
Qed.

Lemma returns_call_with_rng {A} (P : A -> Prop)
    (f : Rng -> result ModExn A * Rng) :
  (forall g, exists a g', f g = (Returned a, g') /\ P a) ->
  returns P (call_with_rng f).
Proof.
  intros Hf w. destruct (Hf (st_rng w)) as (a & g' & Hfw & Ha).
  unfold call_with_rng. rewrite Hfw. eauto.
Qed.

End Returns.

Section ShapePreservation.
Context `{TorchLaws}.

Variable self : Layer.
Variable x : Tensor.
Variables padding_mask self_attn_mask enc_padding_mask : option Mask.
Variable enc_out : option Tensor.
Hypothesis Hwf : well_formed self.
Hypothesis Hvalid :
  valid_call self x padding_mask self_attn_mask enc_out enc_padding_mask.

(** Tensors shaped like the input [x]. *)
Let like_x (t : Tensor) : Prop := shape t = shape x.

Lemma norm_returns (norm : LayerNorm) t :
  norm_keeps_shape (shape x) norm -> like_x t ->
  returns like_x (call (LayerNorm_forward norm t)).
Proof. intros Hnorm Ht. apply returns_call. now apply Hnorm. Qed.

Lemma dropout_returns t :
  like_x t ->
  returns like_x
    (if dropout_on self
     then call_with_rng (F_dropout t (dropout_p self) (training self))
     else ret t).
Proof.
  intros Ht. destruct (dropout_on self) eqn:Hon; [|now apply returns_ret].
  apply returns_call_with_rng. intros g.
  destruct (F_dropout_shape t (dropout_p self) (training self) g)
    as (y & g' & Hdrop & Hy); [exact Hon | now apply (valid_dropout_p _ _ _ _ _ _ Hvalid) |].
  exists y, g'. split; [assumption|]. unfold like_x. congruence.
Qed.

Lemma add_returns a b :
  like_x a -> like_x b -> returns like_x (call (tensor_add a b)).
Proof.
  intros Ha Hb. apply returns_call.
  destruct (tensor_add_shape a b) as (c & Hadd & Hc); [unfold like_x in *; congruence|].
  exists c. split; [assumption|]. unfold like_x in *. congruence.
Qed.

Lemma _forward_self_attn_returns t :
  like_x t ->
  returns like_x (_forward_self_attn self t padding_mask self_attn_mask).
Proof.
  intros Ht. unfold _forward_self_attn.
  eapply returns_bind with (P := like_x).
  { destruct (norm_order_eqb (norm_order self) POST); cbn [negb].
    - now apply returns_ret.
    - apply norm_returns; [exact (valid_self_attn_layer_norm _ _ _ _ _ _ Hvalid) | assumption]. }
  intros q Hq. eapply returns_bind with (P := like_x).
  { apply returns_call_with_bag. intros bag.
    now apply (valid_self_attn _ _ _ _ _ _ Hvalid). }
  intros y Hy. eapply returns_bind with (P := like_x).
  { destruct (self_attn_norm self) as [norm|] eqn:Hnorm.
    - apply norm_returns; [|assumption].
      now apply (valid_self_attn_norm _ _ _ _ _ _ Hvalid).
    - now apply returns_ret. }
  intros y1 Hy1. eapply returns_bind; [now apply dropout_returns|].
  intros y2 Hy2. eapply returns_bind; [now apply add_returns|].
  intros s Hs. eapply returns_bind with (P := like_x).
  { destruct (norm_order_eqb (norm_order self) POST).
    - apply norm_returns; [exact (valid_self_attn_layer_norm _ _ _ _ _ _ Hvalid) | assumption].
    - now apply returns_ret. }
  intros z Hz. now apply returns_ret.
Qed.

Lemma _forward_enc_dec_attn_returns t :
  like_x t ->
  returns like_x (_forward_enc_dec_attn self t enc_out enc_padding_mask).
Proof.
  intros Ht. unfold _forward_enc_dec_attn.
  assert (Hcases :
            (exists attn e, enc_dec_attn self = Some attn /\ enc_out = Some e)
            \/ (enc_dec_attn self = None /\ enc_out = None)).
  { pose proof (valid_enc_out _ _ _ _ _ _ Hvalid) as Hmatch.
    unfold enc_out_matches in Hmatch. clear Hvalid.
    destruct (enc_dec_attn self) as [attn|], enc_out as [e|].
    - left. now exists attn, e.
    - destruct (proj2 Hmatch) as [? [=]]. eauto.
    - destruct (proj1 Hmatch) as [? [=]]. eauto.
    - now right. }
  destruct Hcases as [(attn & e & Hattn & He) | (Hattn & He)]; rewrite Hattn, He.
  - destruct (proj1 (proj1 Hwf) (ex_intro _ attn Hattn)) as [norm Hnorm].
    assert (Hkeeps : norm_keeps_shape (shape x) norm)
      by now apply (valid_enc_dec_attn_layer_norm _ _ _ _ _ _ Hvalid).
    unfold call_enc_dec_attn_layer_norm. rewrite Hnorm.
    eapply returns_bind with (P := like_x).
    { destruct (norm_order_eqb (norm_order self) POST); cbn [negb].
      - now apply returns_ret.
      - now apply norm_returns. }
    intros q Hq. eapply returns_bind with (P := like_x).
    { apply returns_call_with_bag. intros bag.
      now apply (valid_enc_dec_attn _ _ _ _ _ _ Hvalid attn e). }
    intros y Hy. eapply returns_bind; [now apply dropout_returns|].
    intros y2 Hy2. eapply returns_bind; [now apply add_returns|].
    intros s Hs. eapply returns_bind with (P := like_x).
    { destruct (norm_order_eqb (norm_order self) POST).
      - now apply norm_returns.
      - now apply returns_ret. }
    intros z Hz. now apply returns_ret.
  - now apply returns_ret.
Qed.

Lemma _forward_ffn_returns t :
  like_x t -> returns like_x (_forward_ffn self t).
Proof.
  intros Ht. unfold _forward_ffn.
  eapply returns_bind with (P := like_x).
  { destruct (norm_order_eqb (norm_order self) POST); cbn [negb].
    - now apply returns_ret.
    - apply norm_returns; [exact (valid_ffn_layer_norm _ _ _ _ _ _ Hvalid) | assumption]. }
  intros q Hq. eapply returns_bind with (P := like_x).
  { apply returns_call. now apply (valid_ffn _ _ _ _ _ _ Hvalid). }
  intros y Hy. eapply returns_bind; [now apply dropout_returns|].
  intros y2 Hy2. eapply returns_bind with (P := like_x).
  { destruct (residual_scale self) as [scale|] eqn:Hscale.
    - apply returns_call.
      destruct (torch_mul_shape scale t (model_dim self)) as (c & Hmul & Hc).
      + now apply (proj2 Hwf).
      + unfold like_x in Ht. rewrite Ht.
        exact (valid_input _ _ _ _ _ _ Hvalid).
      + exists c. split; [assumption|]. unfold like_x in *. congruence.
    - now apply returns_ret. }
  intros r Hr. eapply returns_bind; [now apply add_returns|].
  intros s Hs. eapply returns_bind with (P := like_x).
  { destruct (norm_order_eqb (norm_order self) POST).
    - apply norm_returns; [exact (valid_ffn_layer_norm _ _ _ _ _ _ Hvalid) | assumption].
    - now apply returns_ret. }
  intros z Hz. now apply returns_ret.
Qed.

Lemma forward_returns :
  returns like_x
    (forward self x padding_mask self_attn_mask enc_out enc_padding_mask).
Proof.
  unfold forward.
  eapply returns_bind; [now apply _forward_self_attn_returns|].
  intros y Hy. eapply returns_bind; [now apply _forward_enc_dec_attn_returns|].
  intros z Hz. eapply returns_bind; [now apply _forward_ffn_returns|].
  intros a Ha. now apply returns_ret.
Qed.

End ShapePreservation.

(** The constructor establishes [well_formed]. *)
Lemma __init___well_formed `{TorchLaws} sa eda net sr p order eps dev dt
    (self : Layer) :
  __init__ sa eda net sr p order eps dev dt = Ok self -> well_formed self.
Proof.
  intros Hinit. apply __init___Ok in Hinit as (-> & _). split; cbn.
  - destruct eda; split; intros [? [=]]; eauto.
  - destruct sr; intros s [= <-].
    now rewrite nn_init_ones_shape, torch_empty_shape.
Qed.

(** C6.  A layer built by the constructor is well formed, under every norm
    order and with or without cross attention.  For a well-formed layer and a
    valid call (an input whose last axis is the model dimension, an encoder
    output exactly when the layer has cross attention, collaborators that
    accept the tensors shaped like the input and preserve their shape),
    [forward] returns normally, and the tensor it returns has the shape of
    the input. *)
Theorem forward_preserves_shape `{TorchLaws} :
  (forall sa eda net sr p order eps dev dt (self : Layer),
      __init__ sa eda net sr p order eps dev dt = Ok self -> well_formed self)
  /\ (forall (self : Layer) (x : Tensor)
        (padding_mask self_attn_mask : option Mask)
        (enc_out : option Tensor) (enc_padding_mask : option Mask),
        well_formed self ->
        valid_call self x padding_mask self_attn_mask enc_out enc_padding_mask ->
        forall w, exists y w',
          forward self x padding_mask self_attn_mask enc_out enc_padding_mask w
          = (Ok y, w')
          /\ shape y = shape x).
Proof.
  split.
  - intros sa eda net sr p order eps dev dt self. apply __init___well_formed.
  - intros self x pm am enc_out epm Hwf Hvalid.
    exact (forward_returns self x pm am epm enc_out Hwf Hvalid).
Qed.

(** The tagging collaborators obey the shape rules, and every call of a
    tagging layer on an input with eight channels is valid. *)
#[export] Instance tagged_laws : @TorchLaws Tagged.tagged.
Proof.
  split; cbn.
  - intros a b _. now exists (Tagged.Added a b).
  - intros s t d _ _. now exists (Tagged.Scaled s t).
  - intros t p [|] r _ _; cbn; eauto.
  - reflexivity.
  - reflexivity.
Qed.

Lemma tagged_valid_call order cross extra scale p train
    (x : Tagged.term) pm am (enc_out : option Tagged.term) epm :
  last (Tagged.shape_of x) = Some 8 ->
  (is_Some enc_out <-> cross = true) ->
  PrimFloat.leb p 1%float = true ->
  valid_call (Tagged.layer order cross extra scale p train) x pm am enc_out epm.
Proof.
  intros Hx Henc Hp. split; cbn.
  - exact Hx.
  - unfold enc_out_matches. cbn. rewrite Henc.
    destruct cross; split; intros Hc; try discriminate; eauto.
    now destruct Hc.
  - intros _. exact Hp.
  - intros q bag Hq. cbn. eauto.
  - intros attn e Hattn _ q bag Hq. destruct cross; [|discriminate].
    injection Hattn as <-. cbn. eauto.
  - intros t Ht. cbn. eauto.
  - intros t Ht. cbn. eauto.
  - intros n _ t Ht. cbn. eauto.
  - intros n _ t Ht. cbn. eauto.
  - intros t Ht. cbn. eauto.
Qed.

(** An encoder-decoder layer, normformer order, scaled residual, dropout with
    probability one half in training mode: the output has the shape
    (2, 5, 8) of the input. *)
Lemma forward_preserves_shape_witness :
  exists y w',
    forward
      (Tagged.layer PRE_WITH_NORMFORMER true true
         (Some (Tagged.Input "residual_scale" [8])) 0.5%float true)
      Tagged.x0 None (Some "causal") (Some Tagged.enc0) None Tagged.w0
    = (Ok y, w')
    /\ Tagged.shape_of y = [2; 5; 8].
Proof.
  refine (proj2 forward_preserves_shape
            (Tagged.layer PRE_WITH_NORMFORMER true true
               (Some (Tagged.Input "residual_scale" [8])) 0.5%float true)
            Tagged.x0 None (Some "causal") (Some Tagged.enc0) None _ _ Tagged.w0).
  - split; cbn.
    + split; eauto.
    + intros s [= <-]. reflexivity.
  - apply tagged_valid_call.
    + reflexivity.
    + split; eauto.
    + reflexivity.
Defined.

(** ** The checkpoint key map *)

Section Matching.
Import NllbLoader.

Lemma append_String c s t : String c s ++ t = String c (s ++ t).
Proof. reflexivity. Qed.

Lemma append_Empty t : "" ++ t = t.
Proof. reflexivity. Qed.

Lemma append_assoc_string (a b c : string) : (a ++ b) ++ c = a ++ (b ++ c).
Proof.
  induction a as [|x a IH]; [reflexivity|].
  rewrite !append_String. now rewrite IH.
Qed.

Lemma first_success_app {A B} (f : A -> option B) l1 l2 :
  first_success f (l1 ++ l2)
  = match first_success f l1 with
    | Some b => Some b
    | None => first_success f l2
    end.
Proof. induction l1 as [|a l1 IH]; cbn; [reflexivity|]. now destruct (f a). Qed.

Lemma first_success_map {A B C} (f : B -> option C) (h : A -> B) l :
  first_success f (map h l) = first_success (fun a => f (h a)) l.
Proof.
  induction l as [|a l IH]; cbn; [reflexivity|]. now destruct (f (h a)).
Qed.

Lemma digit_is_not_dot c : is_digit c = true -> Ascii.eqb "." c = false.
Proof.
  destruct c as [[] [] [] [] [] [] [] []]; cbn; intros;
    try discriminate; reflexivity.
Qed.

(** Backtracking over a run of digits that is followed by a dot: if what
    comes after the group cannot start with a digit, only the whole run can
    be the group. *)
Lemma digit_splits_before_dot {B} (g : string -> string -> option B) n rest :
  layer_index n ->
  (forall d c s, is_digit c = true -> g d (String c s) = None) ->
  first_success (fun dr => g (fst dr) (snd dr))
    (digit_splits (n ++ String "." rest))
  = g n (String "." rest).
Proof.
  intros [Hne Hall]. revert g Hne Hall.
  induction n as [|c n IH]; intros g Hne Hall Hg; [congruence|].
  cbn in Hall. apply andb_prop in Hall as [Hc Hall].
  rewrite append_String. cbn [digit_splits]. rewrite Hc.
  rewrite first_success_app, first_success_map. cbn [fst snd first_success].
  destruct n as [|c' n'].
  - rewrite !append_Empty. cbn.
    now destruct (g (String c "") (String "." rest)).
  - rewrite (IH (fun d s => g (String c d) s)); [|congruence|assumption|].
    + destruct (g (String c (String c' n')) (String "." rest)); [reflexivity|].
      cbn in Hall. apply andb_prop in Hall as [Hc' _].
      rewrite append_String. now rewrite Hg.
    + intros d c0 s Hc0. now apply Hg.
Qed.

Lemma match_digits_dot atoms n rest :
  layer_index n ->
  match_atoms (Digits :: Lit "." :: atoms) (n ++ String "." rest)
  = match match_atoms atoms rest with
    | Some (groups, r) => Some (n :: groups, r)
    | None => None
    end.
Proof.
  intros Hn. cbn [match_atoms].
  rewrite (digit_splits_before_dot
             (fun d s =>
                match match_atoms (Lit "." :: atoms) s with
                | Some (groups, r) => Some (d :: groups, r)
                | None => None
                end)); try assumption.
  - reflexivity.
  - intros d c s Hc. cbn [match_atoms]. now rewrite (digit_is_not_dot c Hc).
Qed.

Lemma match_atoms_lit c atoms c' s :
  match_atoms (Lit c :: atoms) (String c' s)
  = if Ascii.eqb c c' then match_atoms atoms s else None.
Proof. reflexivity. Qed.

Lemma match_atoms_nil s : match_atoms [] s = Some ([], s).
Proof. reflexivity. Qed.

Lemma rename_key_nil key : rename_key [] key = Some key.
Proof. reflexivity. Qed.

Lemma rename_key_cons p r km key k' :
  re_sub p r key = Some k' ->
  rename_key ((p, r) :: km) key = rename_key km k'.
Proof.
  intros Hsub. unfold rename_key. cbn [fold_left fst snd]. cbn.
  now rewrite Hsub.
Qed.

End Matching.

(** Strings in the form [String c1 (String c2 (... (n ++ ...)))]. *)
Ltac normalize_key :=
  rewrite ?append_assoc_string, ?append_String, ?append_Empty.

(** Parsing of the (closed) patterns and replacements. *)
Ltac eval_parsers :=
  repeat match goal with
  | |- context [NllbLoader.parse_regex ?p] =>
      let t := eval vm_compute in (NllbLoader.parse_regex p) in
      change (NllbLoader.parse_regex p) with t
  | |- context [NllbLoader.parse_template ?r] =>
      let t := eval vm_compute in (NllbLoader.parse_template r) in
      change (NllbLoader.parse_template r) with t
  end.

(** Matching of a parsed pattern against a key with the layer index [n]. *)
Ltac step_match n :=
  repeat first
    [ rewrite match_atoms_nil
    | rewrite match_atoms_lit; simpl (Ascii.eqb _ _); cbv iota
    | rewrite (match_digits_dot _ n) by assumption ].

(** One pair of the key map applied to the current key. *)
Ltac rename_step n :=
  erewrite rename_key_cons;
  [| unfold NllbLoader.re_sub; eval_parsers; cbn [mbind option_bind];
     cbn [NllbLoader.template_ok NllbLoader.count_groups forallb Nat.leb andb];
     step_match n;
     cbn [NllbLoader.expand mbind option_bind fmap option_fmap option_map
          lookup list_lookup Nat.sub];
     normalize_key; reflexivity ].

(** C8.  Renaming the key [encoder.layers.3.fc1.weight] with the key map gives
    [encoder.layers.3.ffn.inner_proj.weight], whether every pair is applied in
    turn or the first pair that changes the key decides; so does, for every
    layer index [n] and every suffix, renaming [encoder.layers.n.fc1.suffix].
    The control-token fix-up turns the first four rows (r0, r1, r2, r3) of
    the embedding matrix into (r1, r3, r0, r2) and leaves the other rows
    alone: the row order (BOS, PAD, EOS, UNK) becomes (PAD, UNK, BOS, EOS). *)
Theorem checkpoint_key_remap :
  NllbLoader.rename_key NllbLoader._fairseq_key_map "encoder.layers.3.fc1.weight"
  = Some "encoder.layers.3.ffn.inner_proj.weight"
  /\ NllbLoader.rename_key_first_match NllbLoader._fairseq_key_map
       "encoder.layers.3.fc1.weight"
     = Some "encoder.layers.3.ffn.inner_proj.weight"
  /\ (forall n suffix : string,
        NllbLoader.layer_index n ->
        NllbLoader.rename_key NllbLoader._fairseq_key_map
          ("encoder.layers." ++ n ++ ".fc1." ++ suffix)
        = Some ("encoder.layers." ++ n ++ ".ffn.inner_proj." ++ suffix))
  /\ (forall (Row : Type) (r0 r1 r2 r3 : Row) (rest : list Row),
        NllbLoader.fix_control_tokens (r0 :: r1 :: r2 :: r3 :: rest)
        = Some (r1 :: r3 :: r0 :: r2 :: rest))
  /\ NllbLoader.fix_control_tokens
       [NllbLoader.BOS; NllbLoader.PAD; NllbLoader.EOS; NllbLoader.UNK]
     = Some [NllbLoader.PAD; NllbLoader.UNK; NllbLoader.BOS; NllbLoader.EOS].
Proof.
  split; [vm_compute; reflexivity|].
  split; [vm_compute; reflexivity|].
  split; [|split; [|reflexivity]].
  - intros n suffix Hn.
    let t := eval vm_compute in NllbLoader._fairseq_key_map in
    change NllbLoader._fairseq_key_map with t.
    normalize_key. do 14 (rename_step n).
    rewrite rename_key_nil. reflexivity.
  - intros Row r0 r1 r2 r3 rest.
    unfold NllbLoader.fix_control_tokens, NllbLoader.index_select. cbn.
    repeat (case_decide; [cbn | cbn in *; lia]). reflexivity.
Qed.

(** The key of the claim, as the instance [n = 3], [suffix = weight]. *)
Lemma checkpoint_key_remap_witness :
  NllbLoader.layer_index "3"
  /\ NllbLoader.rename_key NllbLoader._fairseq_key_map
       ("encoder.layers." ++ "3" ++ ".fc1." ++ "weight")
     = Some ("encoder.layers." ++ "3" ++ ".ffn.inner_proj." ++ "weight").
Proof.
  assert (Hn : NllbLoader.layer_index "3") by (split; [discriminate | reflexivity]).
  split; [exact Hn|].
  exact (proj1 (proj2 (proj2 checkpoint_key_remap)) "3" "weight" Hn).
Defined.

(** C9, as the claim states it, fails: the display does write the pattern for
    [decoder.layers.N.encoder_attn.out_proj.] twice, but not with two
    different right-hand sides. *)
Lemma duplicate_entry_right_hand_sides_differ_counterexample :
  ~ (exists r1 r2,
       NllbLoader.registered NllbLoader.encoder_attn_out_proj_pattern
         NllbLoader._fairseq_key_map_items = [r1; r2]
       /\ r1 <> r2).
Proof.
  intros (r1 & r2 & Hreg & Hne). vm_compute in Hreg.
  injection Hreg as <- <-. now apply Hne.
Qed.

(** C9, amended.  The display of [_fairseq_key_map] writes the pattern for
    [decoder.layers.N.encoder_attn.out_proj.] twice, both times with the
    right-hand side [decoder.layers.\1.encoder_decoder_attn.output_proj.];
    hence the two written items rename every key alike.  The dict built from
    the fifteen items has fourteen entries, one of them for this pattern. *)
Theorem duplicate_entry_same_right_hand_side :
  NllbLoader.registered NllbLoader.encoder_attn_out_proj_pattern
    NllbLoader._fairseq_key_map_items
  = ["decoder.layers.\1.encoder_decoder_attn.output_proj.";
     "decoder.layers.\1.encoder_decoder_attn.output_proj."]
  /\ (forall r1 r2 key,
        NllbLoader.registered NllbLoader.encoder_attn_out_proj_pattern
          NllbLoader._fairseq_key_map_items = [r1; r2] ->
        NllbLoader.re_sub NllbLoader.encoder_attn_out_proj_pattern r1 key
        = NllbLoader.re_sub NllbLoader.encoder_attn_out_proj_pattern r2 key)
  /\ length NllbLoader._fairseq_key_map_items = 15%nat
  /\ length NllbLoader._fairseq_key_map = 14%nat
  /\ NllbLoader.registered NllbLoader.encoder_attn_out_proj_pattern
       NllbLoader._fairseq_key_map
     = ["decoder.layers.\1.encoder_decoder_attn.output_proj."]
  /\ NllbLoader.dict_get NllbLoader.encoder_attn_out_proj_pattern
       NllbLoader._fairseq_key_map
     = Some "decoder.layers.\1.encoder_decoder_attn.output_proj.".
Proof.
  split; [reflexivity|]. split; [|repeat split].
  intros r1 r2 key Hreg. vm_compute in Hreg. now injection Hreg as <- <-.
Qed.

(** A key of the twelfth decoder layer: both written items send it to the
    same destination. *)
Lemma duplicate_entry_same_right_hand_side_witness :
  NllbLoader.re_sub NllbLoader.encoder_attn_out_proj_pattern
    "decoder.layers.\1.encoder_decoder_attn.output_proj."
    "decoder.layers.12.encoder_attn.out_proj.weight"
  = NllbLoader.re_sub NllbLoader.encoder_attn_out_proj_pattern
      "decoder.layers.\1.encoder_decoder_attn.output_proj."
      "decoder.layers.12.encoder_attn.out_proj.weight".
Proof.
  exact (proj1 (proj2 duplicate_entry_same_right_hand_side) _ _
           "decoder.layers.12.encoder_attn.out_proj.weight" eq_refl).
Defined.
(** * Further properties of the code

    The rest of the checkpoint loader, the state bag and the dropout of the
    decoder layer, and the configuration manager. *)

(** ** The patterns of the key map *)

Section Strings.
Import NllbLoader.

Lemma append_inj_l (p a b : string) : p ++ a = p ++ b -> a = b.
Proof.
  induction p as [|c p IH]; [trivial|].
  rewrite !append_String. intros [= Heq]. auto.
Qed.

Lemma prefix_append (a r : string) : String.prefix a (a ++ r) = true.
Proof.
  induction a as [|c a IH]; [now destruct r|].
  rewrite append_String. cbn. now destruct (ascii_dec c c).
Qed.

Lemma comparable_append (a b x y : string) :
  a ++ x = b ++ y -> comparable a b = true.
Proof.
  unfold comparable. revert b.
  induction a as [|c a IH]; intros b Heq.
  - now destruct b.
  - destruct b as [|c' b].
    + reflexivity.
    + rewrite !append_String in Heq. injection Heq as <- Heq.
      cbn. destruct (ascii_dec c c); [now apply IH | congruence].
Qed.


Lemma digits_dot_unique (n n' x y : string) :
  all_digits n = true -> all_digits n' = true ->
  n ++ String "." x = n' ++ String "." y -> n = n' /\ x = y.
Proof.
  revert n'. induction n as [|c n IH]; intros [|c' n'] Hn Hn' Heq.
  - rewrite !append_Empty in Heq. now injection Heq.
  - rewrite append_Empty, append_String in Heq. injection Heq as <- _.
    cbn in Hn'. discriminate.
  - rewrite append_Empty, append_String in Heq. injection Heq as -> _.
    cbn in Hn. discriminate.
  - rewrite !append_String in Heq. injection Heq as <- Heq.
    cbn in Hn, Hn'. apply andb_prop in Hn as [_ Hn]. apply andb_prop in Hn' as [_ Hn'].
    destruct (IH n' Hn Hn' Heq) as [-> ->]. auto.
Qed.

End Strings.

Section Inversion.
Import NllbLoader.

Lemma first_success_Some {A B} (f : A -> option B) l b :
  first_success f l = Some b -> exists a, In a l /\ f a = Some b.
Proof.
  induction l as [|a l IH]; cbn; [discriminate|].
  destruct (f a) eqn:Hfa.
  - intros [= <-]. eauto.
  - intros Hl. destruct (IH Hl) as (a' & Hin & Ha'). eauto.
Qed.

Lemma digit_splits_In s d r :
  In (d, r) (digit_splits s) ->
  s = d ++ r /\ d <> EmptyString /\ all_digits d = true.
Proof.
  revert d r. induction s as [|c s IH]; intros d r; cbn; [tauto|].
  destruct (is_digit c) eqn:Hc; [|intros []].
  rewrite in_app_iff, in_map_iff. intros [((d' & r') & [= <- <-] & Hin) | [[= <- <-] | []]].
  - destruct (IH _ _ Hin) as (-> & Hne & Hall). cbn.
    rewrite Hc, Hall. repeat split; congruence.
  - cbn. rewrite Hc. repeat split; congruence.
Qed.

Lemma match_digits_dot_inv atoms s gs rest :
  match_atoms (Digits :: Lit "." :: atoms) s = Some (gs, rest) ->
  exists n s' gs',
    layer_index n /\ s = n ++ String "." s'
    /\ match_atoms atoms s' = Some (gs', rest) /\ gs = n :: gs'.
Proof.
  cbn [match_atoms]. intros Hm.
  apply first_success_Some in Hm as ((d & r) & Hin & Hf).
  apply digit_splits_In in Hin as (-> & Hne & Hall). cbn [fst snd] in Hf.
  destruct r as [|c r]; [discriminate|].
  destruct (Ascii.eqb "." c) eqn:Hc; [|discriminate].
  apply Ascii.eqb_eq in Hc as <-.
  destruct (match_atoms atoms r) as [[gs' rest']|] eqn:Hr; [|discriminate].
  injection Hf as <- <-. exists d, r, gs'. repeat split; assumption.
Qed.

Lemma split_lits_match atoms l rest :
  split_lits atoms = (l, rest) ->
  forall s r,
    match_atoms atoms s = Some r
    <-> exists s', s = l ++ s' /\ match_atoms rest s' = Some r.
Proof.
  revert l rest. induction atoms as [|[c|] atoms IH]; intros l rest Hsplit s r.
  - injection Hsplit as <- <-. split; [eauto | now intros (s' & -> & H)].
  - cbn in Hsplit. destruct (split_lits atoms) as [l' rest'] eqn:Hs.
    injection Hsplit as <- <-. cbn [match_atoms]. split.
    + destruct s as [|c' s]; [discriminate|].
      destruct (Ascii.eqb c c') eqn:Hc; [|discriminate].
      apply Ascii.eqb_eq in Hc as <-. intros Hm.
      apply (IH _ _ eq_refl) in Hm as (s' & -> & Hm). eauto.
    + intros (s' & -> & Hm). rewrite append_String, Ascii.eqb_refl.
      apply (IH _ _ eq_refl). eauto.
  - injection Hsplit as <- <-. split; [eauto | now intros (s' & -> & H)].
Qed.

Lemma split_lits_count atoms l rest :
  split_lits atoms = (l, rest) -> count_groups atoms = count_groups rest.
Proof.
  revert l rest. induction atoms as [|[c|] atoms IH]; intros l rest Hsplit.
  - now injection Hsplit as <- <-.
  - cbn in Hsplit. destruct (split_lits atoms) as [l' rest'] eqn:Hs.
    injection Hsplit as <- <-. cbn. eauto.
  - now injection Hsplit as <- <-.
Qed.

(** The strings of a shape, spelled out. *)
Lemma pattern_shape_match atoms sh :
  pattern_shape atoms = Some sh ->
  forall key gs rest,
    match_atoms atoms key = Some (gs, rest)
    <-> match sh_tail sh with
        | None => key = sh_prefix sh ++ rest /\ gs = []
        | Some tail =>
            exists n, layer_index n
              /\ key = sh_prefix sh ++ n ++ String "." (tail ++ rest)
              /\ gs = [n]
        end.
Proof.
  unfold pattern_shape. destruct (split_lits atoms) as [l1 rest1] eqn:H1.
  destruct rest1 as [|[c|] [|[c'|] rest']]; try discriminate.
  - intros [= <-] key gs rest. cbn. rewrite (split_lits_match _ _ _ H1). split.
    + intros (s' & -> & [= <- <-]). auto.
    + intros [-> ->]. eauto.
  - destruct (Ascii.eqb_spec c' "."); [subst c'|].
    2:{ destruct c' as [[] [] [] [] [] [] [] []]; try discriminate. congruence. }
    destruct (split_lits rest') as [l2 rest2] eqn:H2.
    destruct rest2; [|discriminate].
    intros [= <-] key gs rest. cbn. rewrite (split_lits_match _ _ _ H1). split.
    + intros (s' & -> & Hm).
      apply match_digits_dot_inv in Hm as (n & s'' & gs' & Hn & -> & Hm & ->).
      apply (split_lits_match _ _ _ H2) in Hm as (s3 & -> & [= <- <-]).
      eauto.
    + intros (n & Hn & -> & ->). eexists. split; [reflexivity|].
      rewrite match_digits_dot by assumption.
      assert (Hm : match_atoms rest' (l2 ++ rest) = Some ([], rest))
        by (apply (split_lits_match _ _ _ H2); eauto).
      now rewrite Hm.
Qed.

End Inversion.



Section KeyShapes.
Import NllbLoader.

Lemma split_tlits_expand items l rest groups :
  split_tlits items = (l, rest) ->
  expand items groups
  = match expand rest groups with
    | Some out => Some (l ++ out)
    | None => None
    end.
Proof.
  revert l rest. induction items as [|[c|n] items IH]; intros l rest Hsplit.
  - injection Hsplit as <- <-. reflexivity.
  - cbn in Hsplit. destruct (split_tlits items) as [l' rest'] eqn:Hs.
    injection Hsplit as <- <-. cbn [expand]. rewrite (IH _ _ eq_refl).
    now destruct (expand rest' groups).
  - injection Hsplit as <- <-. now destruct (expand (TGroup n :: items) groups).
Qed.

Lemma split_tlits_ok items l rest g :
  split_tlits items = (l, rest) -> template_ok g items = template_ok g rest.
Proof.
  revert l rest. induction items as [|[c|n] items IH]; intros l rest Hsplit.
  - now injection Hsplit as <- <-.
  - cbn in Hsplit. destruct (split_tlits items) as [l' rest'] eqn:Hs.
    injection Hsplit as <- <-. cbn. eauto.
  - now injection Hsplit as <- <-.
Qed.

Lemma template_ok_cons g i items :
  template_ok g (i :: items)
  = match i with TGroup n => (n <=? g)%nat | TLit _ => true end
    && template_ok g items.
Proof. reflexivity. Qed.

Lemma expand_cons_group n items groups :
  expand (TGroup n :: items) groups
  = match groups !! (n - 1)%nat, expand items groups with
    | Some g, Some out => Some (g ++ out)
    | _, _ => None
    end.
Proof. reflexivity. Qed.

Lemma expand_cons_lit c items groups :
  expand (TLit c :: items) groups = String c <$> expand items groups.
Proof. reflexivity. Qed.

Lemma template_shape_expand items st :
  template_shape items = Some st ->
  forall n,
    expand items [n] = Some (render st n EmptyString)
    /\ template_ok 1 items = true
    /\ (sh_tail st = None ->
        expand items [] = Some (render st n EmptyString)
        /\ template_ok 0 items = true).
Proof.
  unfold template_shape. destruct (split_tlits items) as [l1 rest1] eqn:H1.
  destruct rest1 as [|[c|[|[|k]]] [|[c'|] rest']]; try discriminate.
  - intros [= <-] n. unfold render. cbn [sh_tail sh_prefix].
    rewrite !(split_tlits_expand _ _ _ _ H1), !(split_tlits_ok _ _ _ _ H1).
    cbn. auto.
  - destruct (Ascii.eqb_spec c' "."); [subst c'|].
    2:{ destruct c' as [[] [] [] [] [] [] [] []]; try discriminate. congruence. }
    destruct (split_tlits rest') as [l2 rest2] eqn:H2.
    destruct rest2; [|discriminate].
    intros [= <-] n. unfold render. cbn [sh_tail sh_prefix].
    rewrite !(split_tlits_expand _ _ _ _ H1), !(split_tlits_ok _ _ _ _ H1).
    rewrite !template_ok_cons, expand_cons_group, expand_cons_lit.
    rewrite !(split_tlits_expand _ _ _ _ H2), !(split_tlits_ok _ _ _ _ H2).
    cbn. split; [reflexivity|]. split; [reflexivity|]. intros [=].
Qed.

Lemma pattern_shape_count atoms sp :
  pattern_shape atoms = Some sp ->
  count_groups atoms = match sh_tail sp with Some _ => 1%nat | None => 0%nat end.
Proof.
  unfold pattern_shape. destruct (split_lits atoms) as [l1 rest1] eqn:H1.
  rewrite (split_lits_count _ _ _ H1).
  destruct rest1 as [|[c|] [|[c'|] rest']]; try discriminate.
  - now intros [= <-].
  - destruct (Ascii.eqb_spec c' "."); [subst c'|].
    2:{ destruct c' as [[] [] [] [] [] [] [] []]; try discriminate. congruence. }
    destruct (split_lits rest') as [l2 rest2] eqn:H2.
    destruct rest2; [|discriminate].
    intros [= <-]. cbn. now rewrite (split_lits_count _ _ _ H2).
Qed.

Lemma render_append sh n rest :
  render sh n EmptyString ++ rest = render sh n rest.
Proof.
  unfold render. destruct (sh_tail sh).
  - rewrite !append_assoc_string, append_String, !append_assoc_string.
    now rewrite append_Empty.
  - now rewrite append_assoc_string, append_Empty.
Qed.

Lemma in_shape_render sh key :
  in_shape sh key
  <-> exists n rest,
        (sh_tail sh = None \/ layer_index n) /\ key = render sh n rest.
Proof.
  unfold in_shape, render. destruct (sh_tail sh); split.
  - intros (n & rest & Hn & ->). eauto.
  - intros (n & rest & [[=] | Hn] & ->). eauto.
  - intros (rest & ->). exists EmptyString, rest. auto.
  - intros (n & rest & _ & ->). eauto.
Qed.

(** What [re.sub] does with one pair of the key map, by the shapes of the pair. *)
Lemma entry_shapes_spec p r sp st :
  entry_shapes (p, r) = Some (sp, st) ->
  forall key,
    (~ matches p key /\ ~ in_shape sp key /\ re_sub p r key = Some key)
    \/ (matches p key
        /\ exists n rest,
             (sh_tail sp = None \/ layer_index n)
             /\ key = render sp n rest
             /\ re_sub p r key = Some (render st n rest)).
Proof.
  unfold entry_shapes, re_sub, matches. cbn [fst snd].
  destruct (parse_regex p) as [atoms|]; [|discriminate].
  destruct (parse_template r) as [items|]; [|discriminate]. cbn.
  destruct (pattern_shape atoms) as [sp'|] eqn:Hsp; [|discriminate].
  destruct (template_shape items) as [st'|] eqn:Hst; [|discriminate]. cbn.
  intros Hshapes key.
  assert (sp' = sp /\ st' = st /\ (sh_tail sp = None -> sh_tail st = None))
    as (-> & -> & Htails).
  { destruct (sh_tail sp') eqn:E1, (sh_tail st') eqn:E2; try discriminate;
      injection Hshapes as <- <-; repeat split; congruence. }
  clear Hshapes.
  pose proof (pattern_shape_match _ _ Hsp) as Hmatch.
  pose proof (pattern_shape_count _ _ Hsp) as Hcount.
  rewrite Hcount.
  destruct (match_atoms atoms key) as [[gs rest]|] eqn:Hm.
  - right. split; [eauto|].
    apply Hmatch in Hm. unfold render at 1.
    destruct (sh_tail sp) as [tail|] eqn:Htail.
    + destruct Hm as (n & Hn & -> & ->). exists n, rest.
      split; [auto|]. split; [reflexivity|].
      destruct (template_shape_expand _ _ Hst n) as (Hexp & Hok & _).
      rewrite Hok, Hexp. cbn. now rewrite render_append.
    + destruct Hm as [-> ->]. exists EmptyString, rest.
      split; [auto|]. split; [reflexivity|].
      destruct (template_shape_expand _ _ Hst EmptyString) as (_ & _ & Hnone).
      destruct (Hnone (Htails eq_refl)) as [Hexp Hok].
      rewrite Hok, Hexp. cbn. now rewrite render_append.
  - left. split; [|split].
    + intros (atoms' & r' & [= <-] & Hm'). congruence.
    + unfold in_shape. destruct (sh_tail sp) as [tail|].
      * intros (n & rest & Hn & ->).
        assert (Hsome : match_atoms atoms
                          (sh_prefix sp ++ n ++ String "." (tail ++ rest))
                        = Some ([n], rest)) by (apply Hmatch; eauto).
        congruence.
      * intros (rest & ->).
        assert (Hsome : match_atoms atoms (sh_prefix sp ++ rest)
                        = Some ([], rest)) by (apply Hmatch; eauto).
        congruence.
    + destruct (sh_tail sp) eqn:Htail.
      * destruct (template_shape_expand _ _ Hst EmptyString) as (_ & Hok & _).
        now rewrite Hok.
      * destruct (template_shape_expand _ _ Hst EmptyString) as (_ & _ & Hnone).
        destruct (Hnone (Htails eq_refl)) as [_ Hok]. now rewrite Hok.
Qed.

Lemma disjointb_sound s1 s2 key :
  disjointb s1 s2 = true -> in_shape s1 key -> in_shape s2 key -> False.
Proof.
  unfold disjointb. intros Hd H1 H2.
  assert (Hcmp : comparable (sh_prefix s1) (sh_prefix s2) = true).
  { unfold in_shape in H1, H2.
    destruct (sh_tail s1), (sh_tail s2);
      repeat match goal with
             | H : exists _, _ |- _ => destruct H
             | H : _ /\ _ |- _ => destruct H
             end; subst key; eapply comparable_append; eassumption. }
  rewrite Hcmp in Hd. cbn in Hd.
  destruct (String.eqb_spec (sh_prefix s1) (sh_prefix s2)) as [Heq|]; [|discriminate].
  unfold in_shape in H1, H2.
  destruct (sh_tail s1) as [t1|], (sh_tail s2) as [t2|]; try discriminate.
  destruct H1 as (n1 & r1 & [_ Hn1] & ->), H2 as (n2 & r2 & [_ Hn2] & Hkey).
  rewrite Heq in Hkey. apply append_inj_l in Hkey.
  apply digits_dot_unique in Hkey as [_ Hkey]; [|assumption..].
  apply comparable_append in Hkey. rewrite Hkey in Hd. discriminate.
Qed.

End KeyShapes.

Section KeyMapFacts.
Import NllbLoader.

Lemma entry_shapes_tails e sp st :
  entry_shapes e = Some (sp, st) -> sh_tail sp = None -> sh_tail st = None.
Proof.
  unfold entry_shapes. intros Hsh Hnone.
  destruct (parse_regex (fst e)); [|discriminate].
  destruct (parse_template (snd e)); [|discriminate]. cbn in Hsh.
  destruct (pattern_shape _) as [sp'|]; [|discriminate].
  destruct (template_shape _) as [st'|]; [|discriminate]. cbn in Hsh.
  destruct (sh_tail sp') eqn:Ea, (sh_tail st') eqn:Eb; try discriminate;
    injection Hsh as <- <-; congruence.
Qed.

Lemma key_map_entries_have_shapes e :
  In e _fairseq_key_map -> exists sp st, entry_shapes e = Some (sp, st).
Proof.
  intros Hin.
  assert (Hall : forallb (fun e => match entry_shapes e with Some _ => true | None => false end)
                   _fairseq_key_map = true) by (vm_compute; reflexivity).
  rewrite forallb_forall in Hall. specialize (Hall e Hin).
  destruct (entry_shapes e) as [[sp st]|]; [eauto | discriminate].
Qed.

Lemma matches_in_shape p r sp st key :
  entry_shapes (p, r) = Some (sp, st) -> matches p key -> in_shape sp key.
Proof.
  intros Hsh Hm. destruct (entry_shapes_spec _ _ _ _ Hsh key)
    as [(Hno & _) | (_ & n & rest & Hn & -> & _)]; [contradiction|].
  apply in_shape_render. eauto.
Qed.

(** X1.  For every pair of the key map and every key, [re.sub] succeeds.  A
    key that the pattern does not match is returned unchanged.  The keys
    that it matches are exactly the pattern's literal text around a layer
    index (a non-empty run of digits, where the pattern has a group),
    followed by any remainder; and the result for such a key is the
    replacement's literal text around the same layer index, followed by the
    same remainder. *)
Theorem key_map_rename_keeps_index_and_rest p r :
  In (p, r) _fairseq_key_map ->
  exists sp st,
    entry_shapes (p, r) = Some (sp, st)
    /\ (forall key,
          (~ matches p key /\ re_sub p r key = Some key)
          \/ (matches p key
              /\ exists n rest,
                   (sh_tail sp = None \/ layer_index n)
                   /\ key = render sp n rest
                   /\ re_sub p r key = Some (render st n rest)))
    /\ (forall n rest,
          sh_tail sp = None \/ layer_index n ->
          matches p (render sp n rest)
          /\ re_sub p r (render sp n rest) = Some (render st n rest)).
Proof.
  intros Hin. destruct (key_map_entries_have_shapes _ Hin) as (sp & st & Hsh).
  exists sp, st. split; [assumption|]. split.
  - intros key.
    destruct (entry_shapes_spec _ _ _ _ Hsh key)
      as [(Hno & _ & Hsub) | (Hm & n & rest & Hn & Hkey & Hsub)];
      [left | right]; eauto 6.
  - intros n rest Hn.
    destruct (entry_shapes_spec _ _ _ _ Hsh (render sp n rest))
      as [(_ & Hout & _) | (Hm & n' & rest' & Hn' & Hkey & Hsub)].
    + exfalso. apply Hout, in_shape_render. eauto.
    + split; [assumption|]. rewrite Hsub. f_equal.
      pose proof (entry_shapes_tails _ _ _ Hsh) as Htails.
      unfold render in Hkey |- *.
      destruct (sh_tail sp) as [tail|] eqn:Etail.
      * destruct Hn as [[=]|[_ Hn]], Hn' as [[=]|[_ Hn']].
        apply append_inj_l, digits_dot_unique in Hkey as [-> Hrest];
          [|assumption..].
        apply append_inj_l in Hrest. now subst rest'.
      * rewrite (Htails eq_refl). apply append_inj_l in Hkey. now subst rest'.
Qed.

(** X2.  Apart from the pair [encoder_attn.out_proj.] / [encoder_attn.], no
    two different patterns of the key map match the same key: the order of
    the pairs matters for that pair only. *)
Theorem key_map_patterns_apart e1 e2 key :
  In e1 _fairseq_key_map -> In e2 _fairseq_key_map ->
  fst e1 <> fst e2 ->
  ~ (fst e1 = encoder_attn_out_proj_pattern /\ fst e2 = encoder_attn_pattern) ->
  ~ (fst e1 = encoder_attn_pattern /\ fst e2 = encoder_attn_out_proj_pattern) ->
  ~ (matches (fst e1) key /\ matches (fst e2) key).
Proof.
  intros H1 H2 Hne Hpair1 Hpair2 [Hm1 Hm2].
  assert (Hall : forallb (fun e1 => forallb (apart e1) _fairseq_key_map)
                   _fairseq_key_map = true) by (vm_compute; reflexivity).
  rewrite forallb_forall in Hall. specialize (Hall e1 H1).
  rewrite forallb_forall in Hall. specialize (Hall e2 H2).
  unfold apart in Hall.
  destruct (String.eqb_spec (fst e1) (fst e2)); [contradiction|].
  destruct (String.eqb_spec (fst e1) encoder_attn_out_proj_pattern),
           (String.eqb_spec (fst e2) encoder_attn_pattern); try tauto;
  destruct (String.eqb_spec (fst e1) encoder_attn_pattern),
           (String.eqb_spec (fst e2) encoder_attn_out_proj_pattern); try tauto;
  cbn in Hall;
  destruct e1 as [p1 r1], e2 as [p2 r2];
  destruct (entry_shapes (p1, r1)) as [[s1 t1]|] eqn:E1; try discriminate;
  destruct (entry_shapes (p2, r2)) as [[s2 t2]|] eqn:E2; try discriminate;
  eapply disjointb_sound; eauto using matches_in_shape.
Qed.

(** X3.  A key produced by a pair of the key map is matched by no pattern of
    the key map: every pair returns it unchanged, so names that have been
    renamed are never renamed again. *)
Theorem key_map_renamed_keys_are_stable e1 e2 key key' :
  In e1 _fairseq_key_map -> In e2 _fairseq_key_map ->
  matches (fst e1) key ->
  re_sub (fst e1) (snd e1) key = Some key' ->
  ~ matches (fst e2) key' /\ re_sub (fst e2) (snd e2) key' = Some key'.
Proof.
  intros H1 H2 Hm Hsub.
  assert (Hall : forallb (fun e1 => forallb (stable e1) _fairseq_key_map)
                   _fairseq_key_map = true) by (vm_compute; reflexivity).
  rewrite forallb_forall in Hall. specialize (Hall e1 H1).
  rewrite forallb_forall in Hall. specialize (Hall e2 H2).
  unfold stable in Hall. destruct e1 as [p1 r1], e2 as [p2 r2]. cbn [fst snd] in *.
  destruct (entry_shapes (p1, r1)) as [[s1 t1]|] eqn:E1; [|discriminate].
  destruct (entry_shapes (p2, r2)) as [[s2 t2]|] eqn:E2; [|discriminate].
  assert (Hin : in_shape t1 key').
  { destruct (entry_shapes_spec _ _ _ _ E1 key)
      as [(Hno & _) | (_ & n & rest & Hn & Hkey & Hsub')]; [contradiction|].
    rewrite Hsub in Hsub'. injection Hsub' as ->.
    apply in_shape_render. exists n, rest. split; [|reflexivity].
    destruct Hn as [Hnone | Hn]; [|auto]. left.
    unfold entry_shapes in E1. cbn [fst snd] in E1.
    destruct (parse_regex p1); [|discriminate].
    destruct (parse_template r1); [|discriminate]. cbn in E1.
    destruct (pattern_shape _) as [sp|]; [|discriminate].
    destruct (template_shape _) as [st|]; [|discriminate]. cbn in E1.
    destruct (sh_tail sp) eqn:Ea, (sh_tail st) eqn:Eb; try discriminate;
      injection E1 as <- <-; congruence. }
  assert (Hno : ~ matches p2 key').
  { intros Hm2. eapply disjointb_sound; eauto using matches_in_shape. }
  split; [assumption|].
  destruct (entry_shapes_spec _ _ _ _ E2 key') as [(_ & _ & Hs) | (Hm2 & _)];
    [assumption | contradiction].
Qed.

End KeyMapFacts.

(** Membership in a list that is given by its elements. *)
Ltac in_list := cbv; repeat (first [left; reflexivity | right]).

(** The pair for [fc1] of the encoder, on a key whose remainder looks like
    another layer index: the first run of digits is the layer index. *)
Lemma key_map_rename_keeps_index_and_rest_witness :
  NllbLoader.matches "^encoder\.layers\.([0-9]+)\.fc1\."
    "encoder.layers.3.fc1.4.fc1.w"
  /\ NllbLoader.re_sub "^encoder\.layers\.([0-9]+)\.fc1\."
       "encoder.layers.\1.ffn.inner_proj." "encoder.layers.3.fc1.4.fc1.w"
     = Some "encoder.layers.3.ffn.inner_proj.4.fc1.w".
Proof.
  destruct (key_map_rename_keeps_index_and_rest
              "^encoder\.layers\.([0-9]+)\.fc1\." "encoder.layers.\1.ffn.inner_proj."
              ltac:(in_list)) as (sp & st & Hsh & _ & Hall).
  vm_compute in Hsh. injection Hsh as <- <-.
  assert (Hn : NllbLoader.layer_index "3") by (split; [discriminate | reflexivity]).
  pose proof (Hall "3" "4.fc1.w" (or_intror Hn)) as Hkey. clear Hall.
  cbv [NllbLoader.render NllbLoader.sh_tail NllbLoader.sh_prefix String.append]
    in Hkey.
  exact Hkey.
Defined.

Lemma key_map_patterns_apart_witness :
  ~ (NllbLoader.matches "^encoder\.layers\.([0-9]+)\.fc1\."
       "encoder.layers.3.fc1.weight"
     /\ NllbLoader.matches "^encoder\.layers\.([0-9]+)\.fc2\."
          "encoder.layers.3.fc1.weight").
Proof.
  apply (key_map_patterns_apart
           ("^encoder\.layers\.([0-9]+)\.fc1\.", "encoder.layers.\1.ffn.inner_proj.")
           ("^encoder\.layers\.([0-9]+)\.fc2\.", "encoder.layers.\1.ffn.output_proj.")).
  - in_list.
  - in_list.
  - discriminate.
  - intros [[=] _].
  - intros [[=] _].
Defined.

Lemma key_map_renamed_keys_are_stable_witness :
  ~ NllbLoader.matches "^encoder\.layers\.([0-9]+)\.fc2\."
      "encoder.layers.3.ffn.inner_proj.weight"
  /\ NllbLoader.re_sub "^encoder\.layers\.([0-9]+)\.fc2\."
       "encoder.layers.\1.ffn.output_proj."
       "encoder.layers.3.ffn.inner_proj.weight"
     = Some "encoder.layers.3.ffn.inner_proj.weight".
Proof.
  apply (key_map_renamed_keys_are_stable
           ("^encoder\.layers\.([0-9]+)\.fc1\.", "encoder.layers.\1.ffn.inner_proj.")
           ("^encoder\.layers\.([0-9]+)\.fc2\.", "encoder.layers.\1.ffn.output_proj.")
           "encoder.layers.3.fc1.weight").
  - in_list.
  - in_list.
  - eexists _, _. split; vm_compute; reflexivity.
  - vm_compute. reflexivity.
Defined.

(** X4.  The two overlapping patterns: every key
    [decoder.layers.n.encoder_attn.out_proj.suffix] is matched by the
    [out_proj] pattern and by the more general [encoder_attn.] pattern, and
    the two pairs rename it differently ([output_proj] against [out_proj]).
    In the dict the [out_proj] pair comes first. *)
Theorem encoder_attn_patterns_overlap (n suffix : string) :
  NllbLoader.layer_index n ->
  let key := "decoder.layers." ++ n ++ ".encoder_attn.out_proj." ++ suffix in
  NllbLoader.matches NllbLoader.encoder_attn_out_proj_pattern key
  /\ NllbLoader.matches NllbLoader.encoder_attn_pattern key
  /\ NllbLoader.re_sub NllbLoader.encoder_attn_out_proj_pattern
       "decoder.layers.\1.encoder_decoder_attn.output_proj." key
     = Some ("decoder.layers." ++ n ++ ".encoder_decoder_attn.output_proj." ++ suffix)
  /\ NllbLoader.re_sub NllbLoader.encoder_attn_pattern
       "decoder.layers.\1.encoder_decoder_attn." key
     = Some ("decoder.layers." ++ n ++ ".encoder_decoder_attn.out_proj." ++ suffix)
  /\ "decoder.layers." ++ n ++ ".encoder_decoder_attn.output_proj." ++ suffix
     <> "decoder.layers." ++ n ++ ".encoder_decoder_attn.out_proj." ++ suffix
  /\ NllbLoader._fairseq_key_map !! 2%nat
     = Some (NllbLoader.encoder_attn_out_proj_pattern,
             "decoder.layers.\1.encoder_decoder_attn.output_proj.")
  /\ NllbLoader._fairseq_key_map !! 3%nat
     = Some (NllbLoader.encoder_attn_pattern,
             "decoder.layers.\1.encoder_decoder_attn.").
Proof.
  intros Hn key. subst key.
  unfold NllbLoader.encoder_attn_out_proj_pattern, NllbLoader.encoder_attn_pattern.
  split; [|split; [|split; [|split; [|split; [|split]]]]].
  - eexists _, _. split; [vm_compute; reflexivity|].
    normalize_key. step_match n. reflexivity.
  - eexists _, _. split; [vm_compute; reflexivity|].
    normalize_key. step_match n. reflexivity.
  - unfold NllbLoader.re_sub; eval_parsers; cbn [mbind option_bind];
      cbn [NllbLoader.template_ok NllbLoader.count_groups forallb Nat.leb andb];
      normalize_key; step_match n;
      cbn [NllbLoader.expand mbind option_bind fmap option_fmap option_map
           lookup list_lookup Nat.sub];
      repeat (progress normalize_key); reflexivity.
  - unfold NllbLoader.re_sub; eval_parsers; cbn [mbind option_bind];
      cbn [NllbLoader.template_ok NllbLoader.count_groups forallb Nat.leb andb];
      normalize_key; step_match n;
      cbn [NllbLoader.expand mbind option_bind fmap option_fmap option_map
           lookup list_lookup Nat.sub];
      repeat (progress normalize_key); reflexivity.
  - intros Heq. apply append_inj_l, append_inj_l in Heq. discriminate Heq.
  - reflexivity.
  - reflexivity.
Qed.

Lemma encoder_attn_patterns_overlap_witness :
  NllbLoader.re_sub NllbLoader.encoder_attn_pattern
    "decoder.layers.\1.encoder_decoder_attn."
    ("decoder.layers." ++ "12" ++ ".encoder_attn.out_proj." ++ "bias")
  = Some ("decoder.layers." ++ "12" ++ ".encoder_decoder_attn.out_proj." ++ "bias").
Proof.
  refine (proj1 (proj2 (proj2 (proj2
            (encoder_attn_patterns_overlap "12" "bias" _))))).
  split; [discriminate | reflexivity].
Defined.

(** ** The control-token fix-up and [_upgrade_checkpoint] *)

Section ControlTokenFacts.
Import NllbLoader.
Context {Row : Type}.

Lemma fix_control_tokens_four (r0 r1 r2 r3 : Row) rest :
  fix_control_tokens (r0 :: r1 :: r2 :: r3 :: rest)
  = Some (r1 :: r3 :: r0 :: r2 :: rest).
Proof.
  unfold fix_control_tokens, index_select. cbn.
  repeat (case_decide; [cbn | cbn in *; lia]). reflexivity.
Qed.

Lemma fix_control_tokens_short (embeds : list Row) :
  (length embeds < 4)%nat -> fix_control_tokens embeds = None.
Proof.
  destruct embeds as [|r0 [|r1 [|r2 [|r3 rest]]]]; cbn; try reflexivity. lia.
Qed.

Lemma at_least_four (embeds : list Row) :
  (4 <= length embeds)%nat ->
  exists r0 r1 r2 r3 rest, embeds = r0 :: r1 :: r2 :: r3 :: rest.
Proof.
  destruct embeds as [|r0 [|r1 [|r2 [|r3 rest]]]]; cbn; try lia. eauto 6.
Qed.

(** X5.  The control-token fix-up fails (Python's IndexError) exactly when
    the embedding matrix has fewer than four rows.  When it succeeds the
    matrix keeps its number of rows, its rows are a permutation of the old
    ones, and every row from the fifth on stays where it was. *)
Theorem fix_control_tokens_permutes (embeds : list Row) :
  (fix_control_tokens embeds = None <-> (length embeds < 4)%nat)
  /\ forall embeds',
       fix_control_tokens embeds = Some embeds' ->
       length embeds' = length embeds
       /\ embeds' ≡ₚ embeds
       /\ forall i, (4 <= i)%nat -> embeds' !! i = embeds !! i.
Proof.
  destruct (le_lt_dec 4 (length embeds)) as [Hlen | Hlen].
  - destruct (at_least_four _ Hlen) as (r0 & r1 & r2 & r3 & rest & ->).
    rewrite fix_control_tokens_four. split.
    + split; [discriminate | cbn; lia].
    + intros embeds' [= <-]. split; [reflexivity|]. split.
      * etrans; [apply perm_skip, perm_swap|].
        etrans; [apply perm_swap|].
        do 2 apply perm_skip. apply perm_swap.
      * intros [|[|[|[|i]]]] Hi; try lia. reflexivity.
  - rewrite fix_control_tokens_short by assumption. split; [tauto | discriminate].
Qed.


End ControlTokenFacts.

Lemma fix_control_tokens_permutes_witness :
  length [11; 13; 10; 12; 14] = length [10; 11; 12; 13; 14]
  /\ [11; 13; 10; 12; 14] ≡ₚ [10; 11; 12; 13; 14]
  /\ forall i, (4 <= i)%nat ->
       [11; 13; 10; 12; 14] !! i = [10; 11; 12; 13; 14] !! i.
Proof.
  exact (proj2 (fix_control_tokens_permutes [10; 11; 12; 13; 14])
           [11; 13; 10; 12; 14] eq_refl).
Defined.


Section UpgradeFacts.
Import NllbLoader.
Context {Row E Config : Type}.
Variable upgrade : pydict nat -> dict -> list (@object Row) -> result E (pydict nat) * list (@object Row).

Lemma pydict_get_set_eq {V} k (v : V) d : pydict_get k (pydict_set k v d) = Some v.
Proof.
  induction d as [|[k' v'] d IH]; cbn.
  - now rewrite String.eqb_refl.
  - destruct (String.eqb_spec k k') as [->|Hne]; cbn.
    + now rewrite String.eqb_refl.
    + destruct (String.eqb_spec k k'); [contradiction | assumption].
Qed.

Lemma pydict_get_set_ne {V} k k' (v : V) d :
  k' <> k -> pydict_get k' (pydict_set k v d) = pydict_get k' d.
Proof.
  intros Hne. induction d as [|[k0 v0] d IH]; cbn.
  - destruct (String.eqb_spec k' k); [contradiction | reflexivity].
  - destruct (String.eqb_spec k k0) as [->|Hk]; cbn.
    + destruct (String.eqb_spec k' k0); [contradiction | reflexivity].
    + destruct (String.eqb_spec k' k0); [reflexivity | assumption].
Qed.

(** X7.  When the upgraded checkpoint holds a state dict under [model] whose
    [final_proj.weight] is a tensor of at least four rows,
    [_upgrade_checkpoint] returns that checkpoint; afterwards
    [final_proj.weight], [encoder_frontend.embed.weight] and
    [decoder_frontend.embed.weight] all read the same rows, permuted once;
    no other object of the store and no other name of the state dict has
    changed. *)
Theorem upgrade_checkpoint_ties_embeddings
    checkpoint (config : Config) h c1 h1 sd d e rows :
  upgrade checkpoint _fairseq_key_map h = (Returned c1, h1) ->
  pydict_get "model" c1 = Some sd ->
  h1 !! sd = Some (DictObj d) ->
  pydict_get "final_proj.weight" d = Some e ->
  h1 !! e = Some (TensorObj rows) ->
  (4 <= length rows)%nat ->
  exists h2 rows',
    _upgrade_checkpoint upgrade checkpoint config h = (Returned c1, h2)
    /\ fix_control_tokens rows = Some rows'
    /\ read_rows h2 sd "final_proj.weight" = Some rows'
    /\ read_rows h2 sd "encoder_frontend.embed.weight" = Some rows'
    /\ read_rows h2 sd "decoder_frontend.embed.weight" = Some rows'
    /\ (forall a, a <> sd -> a <> e -> h2 !! a = h1 !! a)
    /\ (forall name,
          name <> "encoder_frontend.embed.weight" ->
          name <> "decoder_frontend.embed.weight" ->
          exists d2, h2 !! sd = Some (DictObj d2)
                     /\ pydict_get name d2 = pydict_get name d).
Proof.
  intros Hup Hmodel Hsd Hfinal He Hlen.
  assert (Hne : e <> sd) by (intros ->; congruence).
  destruct (at_least_four _ Hlen) as (r0 & r1 & r2 & r3 & rest & ->).
  set (d2 := pydict_set "decoder_frontend.embed.weight" e
               (pydict_set "encoder_frontend.embed.weight" e d)).
  set (rows' := r1 :: r3 :: r0 :: r2 :: rest).
  exists (<[e := TensorObj rows']> (<[sd := DictObj d2]> h1)), rows'.
  assert (Hsd2 : (<[e := TensorObj rows']> (<[sd := DictObj d2]> h1)) !! sd
                 = Some (DictObj d2)).
  { rewrite list_lookup_insert_ne by assumption.
    apply list_lookup_insert_eq. now apply lookup_lt_Some in Hsd. }
  assert (He2 : (<[e := TensorObj rows']> (<[sd := DictObj d2]> h1)) !! e
                = Some (TensorObj rows')).
  { apply list_lookup_insert_eq. rewrite length_insert.
    now apply lookup_lt_Some in He. }
  split; [|split; [apply fix_control_tokens_four|]].
  - unfold _upgrade_checkpoint. rewrite Hup, Hmodel, Hsd, Hfinal. cbv beta iota zeta.
    rewrite list_lookup_insert_ne by congruence. rewrite He.
    now rewrite fix_control_tokens_four.
  - unfold read_rows. rewrite Hsd2. subst d2.
    repeat split.
    + rewrite !pydict_get_set_ne by discriminate. now rewrite Hfinal, He2.
    + rewrite pydict_get_set_ne by discriminate.
      now rewrite pydict_get_set_eq, He2.
    + now rewrite pydict_get_set_eq, He2.
    + intros a Hasd Hae. now rewrite !list_lookup_insert_ne by congruence.
    + intros name H1 H2. eexists. split; [reflexivity|].
      now rewrite !pydict_get_set_ne by assumption.
Qed.

(** X8.  The failures of [_upgrade_checkpoint]: what the upgrade function
    raises propagates; a checkpoint without [model], or a state dict without
    [final_proj.weight], is a KeyError that leaves the store as the upgrade
    function left it; an embedding matrix of fewer than four rows is an
    IndexError, raised after the two embedding names have already been
    written into the state dict. *)
Theorem upgrade_checkpoint_errors checkpoint (config : Config) h :
  (forall e h1,
      upgrade checkpoint _fairseq_key_map h = (Failed e, h1) ->
      _upgrade_checkpoint upgrade checkpoint config h = (Failed (UpgradeError e), h1))
  /\ (forall c1 h1,
        upgrade checkpoint _fairseq_key_map h = (Returned c1, h1) ->
        (pydict_get "model" c1 = None ->
         _upgrade_checkpoint upgrade checkpoint config h
         = (Failed (KeyError "model"), h1))
        /\ (forall sd d,
              pydict_get "model" c1 = Some sd ->
              h1 !! sd = Some (DictObj d) ->
              (pydict_get "final_proj.weight" d = None ->
               _upgrade_checkpoint upgrade checkpoint config h
               = (Failed (KeyError "final_proj.weight"), h1))
              /\ (forall e rows,
                    pydict_get "final_proj.weight" d = Some e ->
                    h1 !! e = Some (TensorObj rows) ->
                    (length rows < 4)%nat ->
                    exists h2,
                      _upgrade_checkpoint upgrade checkpoint config h
                      = (Failed IndexError, h2)
                      /\ read_rows h2 sd "encoder_frontend.embed.weight" = Some rows
                      /\ read_rows h2 sd "decoder_frontend.embed.weight" = Some rows
                      /\ h2 !! e = Some (TensorObj rows)))).
Proof.
  split.
  - intros e h1 Hup. unfold _upgrade_checkpoint. now rewrite Hup.
  - intros c1 h1 Hup. split.
    + intros Hmodel. unfold _upgrade_checkpoint. now rewrite Hup, Hmodel.
    + intros sd d Hmodel Hsd. split.
      * intros Hfinal. unfold _upgrade_checkpoint.
        now rewrite Hup, Hmodel, Hsd, Hfinal.
      * intros e rows Hfinal He Hlen.
        assert (Hne : e <> sd) by (intros ->; congruence).
        set (d2 := pydict_set "decoder_frontend.embed.weight" e
                     (pydict_set "encoder_frontend.embed.weight" e d)).
        exists (<[sd := DictObj d2]> h1).
        assert (He2 : (<[sd := DictObj d2]> h1) !! e = Some (TensorObj rows))
          by now rewrite list_lookup_insert_ne by congruence.
        assert (Hsd2 : (<[sd := DictObj d2]> h1) !! sd = Some (DictObj d2)).
        { apply list_lookup_insert_eq. now apply lookup_lt_Some in Hsd. }
        split; [|split; [|split]].
        -- unfold _upgrade_checkpoint. rewrite Hup, Hmodel, Hsd, Hfinal. cbv beta iota zeta.
           fold d2. rewrite He2. now rewrite fix_control_tokens_short.
        -- unfold read_rows. rewrite Hsd2. subst d2.
           rewrite pydict_get_set_ne by discriminate.
           now rewrite pydict_get_set_eq, He2.
        -- unfold read_rows. rewrite Hsd2. subst d2.
           now rewrite pydict_get_set_eq, He2.
        -- assumption.
Qed.

End UpgradeFacts.

Lemma upgrade_checkpoint_ties_embeddings_witness :
  exists h2 rows',
    NllbLoader._upgrade_checkpoint NllbLoader.upgrade_identity [("model", 0%nat)] tt
      (NllbLoader.store_of [10; 11; 12; 13; 14]%nat)
    = (Returned [("model", 0%nat)], h2)
    /\ NllbLoader.fix_control_tokens [10; 11; 12; 13; 14]%nat = Some rows'
    /\ NllbLoader.read_rows h2 0%nat "final_proj.weight" = Some rows'
    /\ NllbLoader.read_rows h2 0%nat "encoder_frontend.embed.weight" = Some rows'
    /\ NllbLoader.read_rows h2 0%nat "decoder_frontend.embed.weight" = Some rows'
    /\ (forall a, a <> 0%nat -> a <> 1%nat ->
          h2 !! a = NllbLoader.store_of [10; 11; 12; 13; 14]%nat !! a)
    /\ (forall name,
          name <> "encoder_frontend.embed.weight" ->
          name <> "decoder_frontend.embed.weight" ->
          exists d2, h2 !! 0%nat = Some (NllbLoader.DictObj d2)
                     /\ NllbLoader.pydict_get name d2
                        = NllbLoader.pydict_get name [("final_proj.weight", 1%nat)]).
Proof.
  apply (upgrade_checkpoint_ties_embeddings NllbLoader.upgrade_identity
           [("model", 0%nat)] tt (NllbLoader.store_of [10; 11; 12; 13; 14]%nat)
           [("model", 0%nat)] (NllbLoader.store_of [10; 11; 12; 13; 14]%nat)
           0%nat [("final_proj.weight", 1%nat)] 1%nat [10; 11; 12; 13; 14]%nat);
    first [reflexivity | cbn; lia].
Defined.

Lemma upgrade_checkpoint_errors_witness :
  exists h2,
    NllbLoader._upgrade_checkpoint NllbLoader.upgrade_identity [("model", 0%nat)] tt
      (NllbLoader.store_of [10; 11; 12]%nat)
    = (Failed NllbLoader.IndexError, h2)
    /\ NllbLoader.read_rows h2 0%nat "encoder_frontend.embed.weight"
       = Some [10; 11; 12]%nat
    /\ NllbLoader.read_rows h2 0%nat "decoder_frontend.embed.weight"
       = Some [10; 11; 12]%nat
    /\ h2 !! 1%nat = Some (NllbLoader.TensorObj [10; 11; 12]%nat).
Proof.
  refine (proj2 (proj2 (proj2 (upgrade_checkpoint_errors NllbLoader.upgrade_identity
                                 [("model", 0%nat)] tt (NllbLoader.store_of [10; 11; 12]%nat))
                          [("model", 0%nat)] (NllbLoader.store_of [10; 11; 12]%nat) eq_refl)
                   0%nat [("final_proj.weight", 1%nat)] eq_refl eq_refl)
            1%nat [10; 11; 12]%nat eq_refl eq_refl _).
  cbn; lia.
Defined.
(** ** The state bag *)

Section StateBag.
Context `{Torch}.
Variable I : option Bag -> Prop.

Lemma keeps_bag_ret {A} (a : A) : keeps_bag I (ret a).
Proof. intros w Hw. exact Hw. Qed.

Lemma keeps_bag_raise {A} e : keeps_bag I (raise (A := A) e).
Proof. intros w Hw. exact Hw. Qed.

Lemma keeps_bag_call {A} (r : result ModExn A) : keeps_bag I (call r).
Proof. intros w Hw. exact Hw. Qed.

Lemma keeps_bag_call_with_rng {A} (f : Rng -> result ModExn A * Rng) :
  keeps_bag I (call_with_rng f).
Proof.
  intros w Hw. unfold call_with_rng. now destruct (f (st_rng w)) as [r g].
Qed.

Lemma keeps_bag_call_with_bag {A}
    (f : option Bag -> result ModExn A * option Bag) :
  (forall bag, I bag -> I (snd (f bag))) -> keeps_bag I (call_with_bag f).
Proof.
  intros Hf w Hw. unfold call_with_bag. specialize (Hf _ Hw).
  now destruct (f (st_bag w)) as [r b].
Qed.

Lemma keeps_bag_bind {A B} (m : M A) (k : A -> M B) :
  keeps_bag I m -> (forall a, keeps_bag I (k a)) -> keeps_bag I (bind m k).
Proof.
  intros Hm Hk w Hw. unfold bind. specialize (Hm w Hw).
  destruct (m w) as [[a|e] w1]; cbn in *; [now apply Hk | assumption].
Qed.

End StateBag.

(** Decomposition of a computation along its binds and branches. *)
Ltac keeps_bag_step :=
  first
    [ apply keeps_bag_ret
    | apply keeps_bag_raise
    | apply keeps_bag_call
    | apply keeps_bag_call_with_rng
    | apply keeps_bag_call_with_bag; solve [auto]
    | apply keeps_bag_bind; [| intros ?]
    | match goal with
      | |- keeps_bag _ (if ?b then _ else _) => destruct b
      | |- keeps_bag _ (match ?o with Some _ => _ | None => _ end) => destruct o
      end ].

Section StateBagOfTheLayer.
Context `{Torch}.

Lemma _forward_ffn_keeps_bag I (self : Layer) x : keeps_bag I (_forward_ffn self x).
Proof. unfold _forward_ffn. repeat keeps_bag_step. Qed.

Lemma _forward_self_attn_keeps_bag I (self : Layer) x padding_mask self_attn_mask :
  attention_keeps_bag I (self_attn self) ->
  keeps_bag I (_forward_self_attn self x padding_mask self_attn_mask).
Proof.
  intros Hattn. unfold _forward_self_attn.
  pose proof (fun q => Hattn q q q self_attn_mask padding_mask).
  repeat keeps_bag_step.
Qed.

Lemma _forward_enc_dec_attn_keeps_bag I (self : Layer) x enc_out enc_padding_mask :
  (forall attn, enc_dec_attn self = Some attn -> attention_keeps_bag I attn) ->
  keeps_bag I (_forward_enc_dec_attn self x enc_out enc_padding_mask).
Proof.
  intros Hattn. unfold _forward_enc_dec_attn, call_enc_dec_attn_layer_norm.
  destruct (enc_dec_attn self) as [attn|]; [|destruct enc_out; keeps_bag_step].
  specialize (Hattn attn eq_refl).
  destruct enc_out as [e|]; [|keeps_bag_step].
  pose proof (fun q => Hattn q e e None enc_padding_mask).
  repeat keeps_bag_step.
Qed.

End StateBagOfTheLayer.

(** X9.  A forward call changes the contents of the state bag only through
    the calls of its attention modules: a property of the bag that every
    call of the self-attention module and of the cross-attention module (if
    the layer has one) keeps, still holds when [forward] returns or raises;
    and the feed-forward sub-block leaves the bag exactly as it found it. *)
Theorem state_bag_changes_only_in_attention `{Torch}
    (I : option Bag -> Prop) (self : Layer) (x : Tensor)
    (padding_mask self_attn_mask : option Mask)
    (enc_out : option Tensor) (enc_padding_mask : option Mask) (w : World) :
  attention_keeps_bag I (self_attn self) ->
  (forall attn, enc_dec_attn self = Some attn -> attention_keeps_bag I attn) ->
  I (st_bag w) ->
  I (st_bag (snd (forward self x padding_mask self_attn_mask
                    enc_out enc_padding_mask w)))
  /\ forall z w2, st_bag (snd (_forward_ffn self z w2)) = st_bag w2.
Proof.
  intros Hself Hcross Hw. split.
  - revert w Hw. change (keeps_bag I (forward self x padding_mask self_attn_mask
                                         enc_out enc_padding_mask)).
    unfold forward.
    apply keeps_bag_bind; [now apply _forward_self_attn_keeps_bag | intros y].
    apply keeps_bag_bind; [now apply _forward_enc_dec_attn_keeps_bag | intros z].
    apply keeps_bag_bind; [apply _forward_ffn_keeps_bag | intros a].
    apply keeps_bag_ret.
  - intros z w2.
    now apply (_forward_ffn_keeps_bag (fun b => b = st_bag w2) self z w2).
Qed.

(** With tagging collaborators, whose attention modules advance the step
    counter of the bag: a call that is handed a bag ends with a bag. *)
Lemma state_bag_changes_only_in_attention_witness :
  is_Some (st_bag (snd (forward (Tagged.layer POST true false None 0%float false)
                          Tagged.x0 None None (Some Tagged.enc0) None Tagged.w0))).
Proof.
  refine (proj1 (state_bag_changes_only_in_attention is_Some
                   (Tagged.layer POST true false None 0%float false)
                   Tagged.x0 None None (Some Tagged.enc0) None Tagged.w0 _ _ _)).
  - intros q k v am pm bag [n ->]. cbn. eauto.
  - intros attn [= <-] q k v am pm bag [n ->]. cbn. eauto.
  - cbn. eauto.
Defined.

(** ** Dropout outside training, and without a positive probability *)

Section DropoutOff.
Context `{Torch}.

(** Dropout as a sub-block applies it, when [F.dropout] is the identity. *)
Lemma dropout_identity (self : Layer) y w :
  (forall t r, F_dropout t (dropout_p self) (training self) r = (Returned t, r)) ->
  dropout_step self y w = (Ok y, w).
Proof.
  intros Hlaw. unfold dropout_step, call_with_rng, ret.
  destruct (dropout_on self); [|reflexivity].
  rewrite Hlaw. now destruct w.
Qed.

Lemma dropout_step_off (self : Layer) y w :
  dropout_on self = false -> dropout_step self y w = (Ok y, w).
Proof. intros Hoff. unfold dropout_step. now rewrite Hoff. Qed.

(** A sub-block depends on its branch through the results of the branch. *)
Lemma norm_block_ext order (norm b1 b2 rescale : Tensor -> M Tensor) x w :
  (forall q w', b1 q w' = b2 q w') ->
  norm_block order norm b1 rescale x w = norm_block order norm b2 rescale x w.
Proof.
  intros Hb. unfold norm_block, post_norm_block, pre_norm_block, bind.
  destruct (norm_order_eqb order POST).
  - now rewrite Hb.
  - destruct (norm x w) as [[n|e] w1]; [|reflexivity]. now rewrite Hb.
Qed.

Lemma bind_ext {A B} (m : M A) (k1 k2 : A -> M B) w :
  (forall a w', k1 a w' = k2 a w') -> bind m k1 w = bind m k2 w.
Proof.
  intros Hk. unfold bind. destruct (m w) as [[a|e] w1]; [apply Hk | reflexivity].
Qed.

(** Two layers that differ in how dropout is configured only, and on which
    the dropout step does nothing, compute the same. *)
Lemma forward_without_dropout (self self' : Layer) :
  self_attn self' = self_attn self ->
  self_attn_norm self' = self_attn_norm self ->
  self_attn_layer_norm self' = self_attn_layer_norm self ->
  enc_dec_attn self' = enc_dec_attn self ->
  enc_dec_attn_layer_norm self' = enc_dec_attn_layer_norm self ->
  ffn self' = ffn self ->
  residual_scale self' = residual_scale self ->
  ffn_layer_norm self' = ffn_layer_norm self ->
  norm_order self' = norm_order self ->
  (forall y w, dropout_step self y w = (Ok y, w)) ->
  (forall y w, dropout_step self' y w = (Ok y, w)) ->
  forall x padding_mask self_attn_mask enc_out enc_padding_mask w,
    forward self' x padding_mask self_attn_mask enc_out enc_padding_mask w
    = forward self x padding_mask self_attn_mask enc_out enc_padding_mask w.
Proof.
  intros Hsa Hsan Hsaln Heda Hedaln Hffn Hscale Hffnln Horder Hd Hd'
    x pm am enc_out epm w.
  assert (Hself : forall x w,
             _forward_self_attn self' x pm am w = _forward_self_attn self x pm am w).
  { intros x1 w1. rewrite !_forward_self_attn_block, Horder, Hsaln.
    apply norm_block_ext. intros q w2.
    unfold self_attn_branch, self_attn_transform, extra_norm_step.
    rewrite Hsa, Hsan. apply bind_ext. intros a w3. apply bind_ext.
    intros b w4. now rewrite Hd, Hd'. }
  assert (Hcross : forall x w,
             _forward_enc_dec_attn self' x enc_out epm w
             = _forward_enc_dec_attn self x enc_out epm w).
  { intros x1 w1.
    rewrite (_forward_enc_dec_attn_guard self'), (_forward_enc_dec_attn_guard self).
    rewrite Heda. destruct (enc_dec_attn self) as [attn|] eqn:Hattn,
      enc_out as [e|]; try reflexivity.
    rewrite (_forward_enc_dec_attn_block self' attn) by congruence.
    rewrite (_forward_enc_dec_attn_block self attn) by assumption.
    rewrite Horder. unfold call_enc_dec_attn_layer_norm. rewrite Hedaln.
    apply norm_block_ext. intros q w2.
    unfold enc_dec_attn_branch. apply bind_ext. intros a w3.
    now rewrite Hd, Hd'. }
  assert (Hnet : forall x w, _forward_ffn self' x w = _forward_ffn self x w).
  { intros x1 w1. rewrite !_forward_ffn_block, Horder, Hffnln.
    unfold scale_step. rewrite Hscale.
    apply norm_block_ext. intros q w2.
    unfold ffn_branch, ffn_transform. rewrite Hffn. apply bind_ext. intros a w3.
    now rewrite Hd, Hd'. }
  rewrite !forward_steps, Hself.
  destruct (_forward_self_attn self x pm am w) as [[y|e] w1]; [|reflexivity].
  rewrite Hcross.
  destruct (_forward_enc_dec_attn self y enc_out epm w1) as [[z|e] w2];
    [apply Hnet | reflexivity].
Qed.

End DropoutOff.

(** X10.  Outside training mode dropout is inert: if [F.dropout] with
    [training = False] returns its input and draws no random number (as
    torch's does for the layer's dropout probability), a forward call of a
    layer in evaluation mode ends exactly as the call of the same layer with
    dropout probability 0, from every world. *)
Theorem eval_mode_disables_dropout `{Torch} (self : Layer) (x : Tensor)
    (padding_mask self_attn_mask : option Mask)
    (enc_out : option Tensor) (enc_padding_mask : option Mask) (w : World) :
  (forall t r, F_dropout t (dropout_p self) false r = (Returned t, r)) ->
  training self = false ->
  forward self x padding_mask self_attn_mask enc_out enc_padding_mask w
  = forward (with_dropout_p self 0%float) x padding_mask self_attn_mask
      enc_out enc_padding_mask w.
Proof.
  intros Hlaw Heval. symmetry.
  apply forward_without_dropout; try reflexivity.
  intros y w1. apply dropout_identity. now rewrite Heval.
Qed.

(** With tagging collaborators, whose dropout is the identity outside
    training mode: a layer with dropout probability one half in evaluation
    mode. *)
Lemma eval_mode_disables_dropout_witness :
  forward (Tagged.layer PRE true true None 0.5%float false)
    Tagged.x0 None None (Some Tagged.enc0) None Tagged.w0
  = forward (with_dropout_p (Tagged.layer PRE true true None 0.5%float false) 0%float)
      Tagged.x0 None None (Some Tagged.enc0) None Tagged.w0.
Proof.
  apply (eval_mode_disables_dropout
           (Tagged.layer PRE true true None 0.5%float false)
           Tagged.x0 None None (Some Tagged.enc0) None Tagged.w0);
    reflexivity.
Defined.

(** X11.  The layer applies dropout only when [dropout_p > 0.0] holds.  For
    every other dropout probability (zero, a negative number, NaN: the
    constructor rejects none of them) a forward call never calls
    [F.dropout]: it ends the same in training and in evaluation mode, and
    it neither reads nor advances the random number generator. *)
Theorem dropout_needs_positive_probability `{Torch} (self : Layer) (mode : bool)
    (x : Tensor) (padding_mask self_attn_mask : option Mask)
    (enc_out : option Tensor) (enc_padding_mask : option Mask) :
  PrimFloat.ltb 0%float (dropout_p self) = false ->
  (forall w,
     forward (with_training self mode) x padding_mask self_attn_mask
       enc_out enc_padding_mask w
     = forward self x padding_mask self_attn_mask enc_out enc_padding_mask w)
  /\ rng_free (forward self x padding_mask self_attn_mask enc_out enc_padding_mask).
Proof.
  intros Hp. split.
  - intros w. apply forward_without_dropout; try reflexivity.
    + intros y w1. now apply dropout_step_off.
    + intros y w1. now apply dropout_step_off.
  - now apply forward_rng_free.
Qed.

(** With tagging collaborators and a dropout probability that is not a
    number: training mode and evaluation mode agree. *)
Lemma dropout_needs_positive_probability_witness :
  forward (with_training (Tagged.layer POST false false None nan true) false)
    Tagged.x0 None None None None Tagged.w0
  = forward (Tagged.layer POST false false None nan true)
      Tagged.x0 None None None None Tagged.w0.
Proof.
  apply (dropout_needs_positive_probability
           (Tagged.layer POST false false None nan true) false
           Tagged.x0 None None None None).
  reflexivity.
Defined.

(** ** A freshly initialised residual scale *)

(** X12.  [reset_parameters] initialises the residual scale with ones.  If
    multiplying by the scale, as initialised, returns the other factor
    whenever the last axis of that factor is the model dimension (which is
    what [torch.mul] does with a vector of ones), then on every valid call a
    layer constructed with [scale_residual = True] computes, until its scale
    is trained, exactly what the layer constructed with
    [scale_residual = False] from the same arguments computes. *)
Theorem fresh_residual_scale_is_neutral `{TorchLaws}
    sa eda net p order eps dev dt (scaled plain : Layer)
    (x : Tensor) (padding_mask self_attn_mask : option Mask)
    (enc_out : option Tensor) (enc_padding_mask : option Mask) (w : World) :
  (forall r, last (shape r) = Some (mha_model_dim sa) ->
     torch_mul (nn_init_ones_ (torch_empty (mha_model_dim sa) dev dt)) r
     = Returned r) ->
  __init__ sa eda net true p order eps dev dt = Ok scaled ->
  __init__ sa eda net false p order eps dev dt = Ok plain ->
  valid_call plain x padding_mask self_attn_mask enc_out enc_padding_mask ->
  forward scaled x padding_mask self_attn_mask enc_out enc_padding_mask w
  = forward plain x padding_mask self_attn_mask enc_out enc_padding_mask w.
Proof.
  intros Hones Hscaled Hplain Hvalid.
  pose proof (__init___well_formed _ _ _ _ _ _ _ _ _ _ Hplain) as Hwf.
  destruct (_forward_self_attn_returns plain x padding_mask self_attn_mask
              enc_padding_mask enc_out Hvalid x eq_refl w)
    as (y & w1 & Hsa & Hy).
  destruct (_forward_enc_dec_attn_returns plain x padding_mask self_attn_mask
              enc_padding_mask enc_out Hwf Hvalid y Hy w1)
    as (z & w2 & Hca & Hz).
  assert (Hlast : last (shape z) = Some (mha_model_dim sa)).
  { rewrite Hz, (valid_input _ _ _ _ _ _ Hvalid).
    apply __init___Ok in Hplain as (-> & _). reflexivity. }
  apply __init___Ok in Hscaled as (-> & _).
  apply __init___Ok in Hplain as (-> & _).
  rewrite !forward_steps.
  match goal with
  | |- match ?a with _ => _ end = match ?b with _ => _ end => change a with b
  end.
  rewrite Hsa.
  match goal with
  | |- match ?a with _ => _ end = match ?b with _ => _ end => change a with b
  end.
  rewrite Hca.
  rewrite !_forward_ffn_block. cbn [norm_order ffn_layer_norm].
  unfold norm_block, post_norm_block, pre_norm_block, scale_step, bind, call.
  cbn [residual_scale]. rewrite (Hones z Hlast).
  destruct (norm_order_eqb order POST); reflexivity.
Qed.

(** The collaborators over integers obey the shape rules, and every call of
    a decoder-only layer built from them is valid when the input has the
    length that the layer expects. *)
Lemma numeric_laws : @TorchLaws Numeric.numeric.
Proof.
  split; cbn.
  - intros a b _. eexists. split; reflexivity.
  - intros s t d _ _. eexists. split; reflexivity.
  - intros t p [|] r _ _; cbn; eexists _, _; split; reflexivity.
  - reflexivity.
  - reflexivity.
Qed.

Lemma numeric_valid_call dim sr order (self : @Layer Numeric.numeric) v :
  __init__ (Numeric.attention dim) None (Numeric.network dim) sr 0%float order
    0x1.4f8b588e368f1p-17%float None None = Ok self ->
  @valid_call Numeric.numeric self (Numeric.Vec dim v) None None None None.
Proof.
  intros Hinit. apply __init___Ok in Hinit as (-> & _). split; cbn.
  - reflexivity.
  - unfold enc_out_matches. cbn. split; intros [? [=]].
  - discriminate.
  - intros q bag Hq. cbn. eexists _, _. split; [reflexivity | exact Hq].
  - intros attn e [=].
  - intros t Ht. cbn. eexists. split; [reflexivity | exact Ht].
  - intros t Ht. cbn. eexists. split; [reflexivity | exact Ht].
  - intros n _ t Ht. cbn. eexists. split; [reflexivity | exact Ht].
  - intros n [=].
  - intros t Ht. cbn. eexists. split; [reflexivity | exact Ht].
Qed.

(** With collaborators over integers, where multiplying by one is exact. *)
Lemma fresh_residual_scale_is_neutral_witness :
  exists scaled plain : @Layer Numeric.numeric,
    __init__ (Numeric.attention 4) None (Numeric.network 4) true 0%float PRE
      0x1.4f8b588e368f1p-17%float None None = Ok scaled
    /\ __init__ (Numeric.attention 4) None (Numeric.network 4) false 0%float PRE
         0x1.4f8b588e368f1p-17%float None None = Ok plain
    /\ residual_scale scaled = Some (Numeric.Vec 4 1)
    /\ residual_scale plain = None
    /\ forward scaled (Numeric.Vec 4 5) None None None None Numeric.w0
       = forward plain (Numeric.Vec 4 5) None None None None Numeric.w0.
Proof.
  eexists _, _.
  split; [reflexivity|]. split; [reflexivity|].
  split; [reflexivity|]. split; [reflexivity|].
  apply (@fresh_residual_scale_is_neutral Numeric.numeric numeric_laws
           (Numeric.attention 4) None (Numeric.network 4) 0%float PRE
           0x1.4f8b588e368f1p-17%float None None _ _
           (Numeric.Vec 4 5) None None None None Numeric.w0).
  - intros [d v] [= <-]. cbn. now destruct v.
  - reflexivity.
  - reflexivity.
  - now apply (numeric_valid_call 4 false PRE).
Defined.

(** ** The configuration manager *)

Section ConfigManagerFacts.
Import config_manager.
Context {Obj TypeExpr Value Detail : Type}.
Implicit Types self : @StandardConfigManager Obj TypeExpr Value Detail.




(** X14.  The factory that [register_config] registers, run against a
    resolver that resolves to a standard configuration manager.  It never
    raises [ConfigNotFoundError]: a path that is missing (and has no default
    factory) gives [None].  A configuration that is present but rejected by
    the value converter still raises: the [ConfigError] that wraps the
    [StructuredError] is not caught.  A configuration that converts is
    returned, and the type it is converted to is [kls] when [type_expr] is
    [None] or false. *)
Theorem create_hides_only_missing_configs
    (truthy : TypeExpr -> bool) (py_None : Value) self
    (path : string) (kls : TypeExpr) (type_expr : option TypeExpr)
    (default_factory : option (unit -> result py_exn Value)) :
  let r := create truthy py_None path kls type_expr default_factory
             {| resolve := Returned self |} in
  let target := type_expr_or truthy type_expr kls in
  (forall msg, r <> Failed (ConfigNotFoundError msg))
  /\ (_config_dict self !! path = None -> default_factory = None ->
      r = Returned py_None)
  /\ (forall config ex,
        _config_dict self !! path = Some config ->
        structure (_value_converter self) config target = Failed (StructuredError ex) ->
        r = Failed (ConfigError (cannot_be_parsed_msg path)
                      (Some (StructuredError ex))))
  /\ (forall config v,
        _config_dict self !! path = Some config ->
        structure (_value_converter self) config target = Returned v ->
        r = Returned v)
  /\ ((type_expr = None \/ exists t, type_expr = Some t /\ truthy t = false) ->
      target = kls).
Proof.
  intros r target. subst r target.
  unfold create, get_config, StandardConfigManager_get_config. cbn [resolve].
  split; [|split; [|split; [|split]]].
  - intros msg.
    destruct (_config_dict self !! path) as [config|].
    + destruct (structure _ config _) as [v|[ex|m c|m|d]]; discriminate.
    + destruct default_factory as [f|]; [|discriminate].
      destruct (f tt) as [v|[ex|m c|m|d]]; discriminate.
  - now intros -> ->.
  - intros config ex -> Hs. now rewrite Hs.
  - intros config v -> Hs. now rewrite Hs.
  - intros [->|(t & -> & Ht)]; cbn; [reflexivity | now rewrite Ht].
Qed.

End ConfigManagerFacts.

Section ConfigManagerExamples.
Import config_manager.


(** A configuration that is present and malformed raises; a missing one
    gives [None] (here 0). *)
Lemma create_hides_only_missing_configs_witness :
  config_manager.create (fun _ => true) 0 "lr" "int" None None
    {| config_manager.resolve := Returned config_manager.updated_twice |}
  = Failed (config_manager.ConfigError (config_manager.cannot_be_parsed_msg "lr")
              (Some (config_manager.StructuredError "negative")))
  /\ config_manager.create (fun _ => true) 0 "batch_size" "int" None None
       {| config_manager.resolve := Returned config_manager.updated_twice |}
     = Returned 0.
Proof.
  split.
  - refine (proj1 (proj2 (proj2 (create_hides_only_missing_configs (fun _ => true) 0
                                   config_manager.updated_twice "lr" "int" None None)))
              (-1) "negative" _ _); vm_compute; reflexivity.
  - refine (proj1 (proj2 (create_hides_only_missing_configs (fun _ => true) 0
                            config_manager.updated_twice "batch_size" "int" None None))
              _ _); vm_compute; reflexivity.
Defined.

End ConfigManagerExamples.
